(** * Webhook dispatcher of tsuru (event/webhook): a shallow embedding

    The development follows [src/router/routerv2.go], package [webhook]:
    the data the service reads ([Event], [WebHook], [WebHookEventFilter]),
    the collaborators it calls (event source, subscription store, HTTP
    client, metrics, log) and the functions [handleEvent], [webhookBody],
    [doHook], [validateURL], [Create], [Update], [Delete], [Shutdown],
    [Notify] and [run].

    Go values are modelled as follows.
    - [string] is a byte string ([String.string]).
    - [error] is an interface value: [option error], [None] being [nil].
    - a pair [(v, err)] returned by a call is a [result].
    - [http.Header] is [map[string][]string]; a map may be [nil], reads of
      a nil map see no entry and a write to a nil map panics.
    - calls that leave the package are recorded, in order, in a list of
      [effect]s; what they answer is given by an [Env]. *)

From stdpp Require Import base option list strings gmap pretty.
From Stdlib Require Import ZArith Ascii String List Bool Lia.
Import ListNotations.

Local Open Scope string_scope.
Local Open Scope Z_scope.
Local Open Scope list_scope.

(** ** Errors and results *)

(** The error values that occur: [tsuruErrors.ValidationError], the errors
    built with [errors.Errorf], and errors coming from a collaborator. *)
Inductive error : Type :=
| ValidationError (Message : string)
| Errorf (msg : string)
| Foreign (msg : string).

(** [err.Error()]. *)
Definition error_Error (e : error) : string :=
  match e with
  | ValidationError m => m
  | Errorf m => m
  | Foreign m => m
  end.

Inductive result (A : Type) : Type :=
| Ok (a : A)
| Err (e : error).
Arguments Ok {A} a.
Arguments Err {A} e.

(** A call either returns or panics. *)
Inductive outcome (A : Type) : Type :=
| Ret (a : A)
| Panic (reason : string).
Arguments Ret {A} a.
Arguments Panic {A} reason.

Definition returns {A : Type} (o : outcome A) : bool :=
  match o with Ret _ => true | Panic _ => false end.

(** ** http.Header *)

Abbreviation http_Header := (option (gmap string (list string))).

(** [h.Get(key)] for a key already in canonical form: the first value
    stored under the key, the empty string when there is none.  A nil map
    is read as an empty one. *)
Definition Header_Get (h : http_Header) (key : string) : string :=
  match h with
  | None => ""
  | Some m =>
      match m !! key with
      | Some (v :: _) => v
      | _ => ""
      end
  end.

(** [h.Set(key, value)] for a key already in canonical form:
    [h[key] = []string{value}], which panics on a nil map. *)
Definition Header_Set (h : http_Header) (key value : string) : outcome http_Header :=
  match h with
  | None => Panic "assignment to entry in nil map"
  | Some m => Ret (Some (<[key := [value]]> m))
  end.

(** ** The data model *)

Module Target.
Record t : Type := { Type_ : string; Value : string }.
End Target.

Module ExtraTarget.
Record t : Type := { Target : Target.t; Lock : bool }.
End ExtraTarget.

Module Kind.
Record t : Type := { Type_ : string; Name : string }.
End Kind.

(** The fields of [event.Event] the service reads. *)
Module Event.
Record t : Type := {
  UniqueID : string;
  Target : Target.t;
  ExtraTargets : list ExtraTarget.t;
  Kind : Kind.t;
  Error : string
}.
End Event.

Module WebHookEventFilter.
Record t : Type := {
  TargetTypes : list string;
  TargetValues : list string;
  KindTypes : list string;
  KindNames : list string
}.
End WebHookEventFilter.

Module WebHook.
Record t : Type := {
  Name : string;
  URL : string;
  Method : string;
  Headers : http_Header;
  Body : string;
  Insecure : bool
}.

Definition with_Method (m : string) (w : t) : t :=
  {| Name := Name w; URL := URL w; Method := m; Headers := Headers w;
     Body := Body w; Insecure := Insecure w |}.

Definition with_Headers (h : http_Header) (w : t) : t :=
  {| Name := Name w; URL := URL w; Method := Method w; Headers := h;
     Body := Body w; Insecure := Insecure w |}.
End WebHook.

(** [http.Request]: the body is [None] for a nil reader. *)
Module Request.
Record t : Type := {
  Method : string;
  URL : string;
  Header : http_Header;
  Body : option string
}.

Definition with_Header (h : http_Header) (r : t) : t :=
  {| Method := Method r; URL := URL r; Header := h; Body := Body r |}.

(** [req.UserAgent()] *)
Definition UserAgent (r : t) : string := Header_Get (Header r) "User-Agent".
End Request.

(** [http.Response]: [Body] is what [ioutil.ReadAll(rsp.Body)] yields, a
    read error being ignored by the caller. *)
Module Response.
Record t : Type := { StatusCode : Z; Body : string }.
End Response.

(** ** Effects *)

(** What the package does to the outside, in program order. *)
Inductive effect : Type :=
| call_GetByID (evtID : string)
| call_FindByEvent (f : WebHookEventFilter.t) (successOnly : bool)
| call_Insert (w : WebHook.t)
| call_Update (w : WebHook.t)
| call_Delete (name : string)
| call_Do (insecure : bool) (req : Request.t) (answer : result Response.t)
| rsp_Body_Close
| webhooksLatency_Observe
| webhooksTotal_Inc
| webhooksError_Inc
| webhooksQueue_Set (depth : nat)
| log_hook_error (hookName : string) (err : error)
| log_event_error (evtID : string).

Definition World : Type := list effect.

(** The collaborators.  Each answer may depend on everything that happened
    before the call. *)
Record Env : Type := {
  (** [strings.Map(unicode.ToUpper, s)], used by [strings.ToUpper] on a
      string that is not pure ASCII *)
  unicode_ToUpper : string -> string;
  (** [json.Marshal(evt)] *)
  json_Marshal : Event.t -> result string;
  (** the error of [url.Parse(u)] *)
  url_Parse : string -> option error;
  (** the platform's name-syntax rule, [validation.ValidateName] *)
  validation_ValidateName : string -> bool;
  (** the message of the error for a name that breaks the rule *)
  validation_invalidName : string;
  (** [event.GetByID] *)
  event_GetByID : World -> string -> result Event.t;
  (** the methods of [eventTypes.WebHookStorage] *)
  storage_FindByEvent :
    World -> WebHookEventFilter.t -> bool -> result (list WebHook.t);
  storage_Insert : World -> WebHook.t -> option error;
  storage_Update : World -> WebHook.t -> option error;
  storage_Delete : World -> string -> option error;
  (** [client.Do(req)], for the client that checks certificates ([false])
      and the one that does not ([true]) *)
  client_Do : World -> bool -> Request.t -> result Response.t
}.

(** ** Computations *)

(** A computation reads the history and yields the effects it adds to it
    and its outcome. *)
Definition Go (A : Type) : Type := World -> list effect * outcome A.

Definition ret {A : Type} (a : A) : Go A := fun _ => ([], Ret a).

Definition bind {A B : Type} (m : Go A) (k : A -> Go B) : Go B :=
  fun w =>
    match m w with
    | (t1, Ret a) =>
        match k a (w ++ t1) with
        | (t2, o) => (t1 ++ t2, o)
        end
    | (t1, Panic p) => (t1, Panic p)
    end.

Definition emit (e : effect) : Go unit := fun _ => ([e], Ret tt).

Definition lift {A : Type} (o : outcome A) : Go A := fun _ => ([], o).

Notation "'let*' x ':=' m 'in' k" := (bind m (fun x => k))
  (at level 10, x pattern, m at level 100, k at level 200, only parsing).

Definition effects {A : Type} (r : list effect * outcome A) : list effect := fst r.
Definition outcome_of {A : Type} (r : list effect * outcome A) : outcome A := snd r.

(** Number of effects of a trace that satisfy [p]. *)
Fixpoint count (p : effect -> bool) (t : list effect) : nat :=
  match t with
  | [] => 0%nat
  | e :: t' => ((if p e then 1 else 0) + count p t')%nat
  end.

(** ** Library functions of Go the package calls *)

Fixpoint string_map (f : ascii -> ascii) (s : string) : string :=
  match s with
  | EmptyString => EmptyString
  | String c s' => String (f c) (string_map f s')
  end.

Fixpoint string_forallb (p : ascii -> bool) (s : string) : bool :=
  match s with
  | EmptyString => true
  | String c s' => p c && string_forallb p s'
  end.

(** A byte below [utf8.RuneSelf]. *)
Definition isASCII (c : ascii) : bool := (N_of_ascii c <? 128)%N.

Definition ascii_ToUpper (c : ascii) : ascii :=
  let n := N_of_ascii c in
  if ((97 <=? n) && (n <=? 122))%N then ascii_of_N (n - 32) else c.

(** [httpguts.IsTokenRune]: the characters of an HTTP token. *)
Definition isToken (c : ascii) : bool :=
  let n := N_of_ascii c in
  (((48 <=? n) && (n <=? 57)) || ((65 <=? n) && (n <=? 90)) ||
   ((97 <=? n) && (n <=? 122)) ||
   existsb (N.eqb n) [33; 35; 36; 37; 38; 39; 42; 43; 45; 46; 94; 95; 96; 124; 126])%N.

(** [validMethod] of net/http: a non-empty token. *)
Definition validMethod (method : string) : bool :=
  negb (method =? "")%string && string_forallb isToken method.

Definition defaultUserAgent : string := "tsuru-webhook-client/1.0".
Definition chanBufferSize : nat := 1000.

Section Service.

Variable env : Env.

(** [strings.ToUpper]: a pure ASCII string has its letters a-z mapped to
    A-Z byte by byte; any other string is mapped rune by rune through
    [unicode.ToUpper]. *)
Definition strings_ToUpper (s : string) : string :=
  if string_forallb isASCII s then string_map ascii_ToUpper s
  else unicode_ToUpper env s.

(** [http.NewRequest(method, url, body)]: an empty method means GET, the
    method must be a token and the URL must parse; the new request has an
    empty, non-nil header map. *)
Definition http_NewRequest (method url : string) (body : option string)
  : result Request.t :=
  let method := if (method =? "")%string then "GET" else method in
  if negb (validMethod method) then Err (Foreign "net/http: invalid method")
  else
    match url_Parse env url with
    | Some e => Err e
    | None =>
        Ok {| Request.Method := method; Request.URL := url;
              Request.Header := Some ∅; Request.Body := body |}
    end.

(** ** handleEvent *)

(** Lines 153-162: the filter literal, then one [append] per extra
    target. *)
Definition buildFilter (evt : Event.t) : WebHookEventFilter.t :=
  fold_left
    (fun filter t =>
       {| WebHookEventFilter.TargetTypes :=
            WebHookEventFilter.TargetTypes filter
              ++ [Target.Type_ (ExtraTarget.Target t)];
          WebHookEventFilter.TargetValues :=
            WebHookEventFilter.TargetValues filter
              ++ [Target.Value (ExtraTarget.Target t)];
          WebHookEventFilter.KindTypes := WebHookEventFilter.KindTypes filter;
          WebHookEventFilter.KindNames := WebHookEventFilter.KindNames filter |})
    (Event.ExtraTargets evt)
    {| WebHookEventFilter.TargetTypes := [Target.Type_ (Event.Target evt)];
       WebHookEventFilter.TargetValues := [Target.Value (Event.Target evt)];
       WebHookEventFilter.KindTypes := [Kind.Type_ (Event.Kind evt)];
       WebHookEventFilter.KindNames := [Kind.Name (Event.Kind evt)] |}.

(** ** webhookBody *)

(** The hook is passed by pointer: the function returns it as it leaves
    it, next to the reader (as the string it reads) and the error. *)
Definition webhookBody (hook : WebHook.t) (evt : Event.t)
  : outcome (WebHook.t * result (option string)) :=
  if negb (WebHook.Body hook =? "")%string then
    Ret (hook, Ok (Some (WebHook.Body hook)))
  else if negb (WebHook.Method hook =? "POST")%string &&
          negb (WebHook.Method hook =? "PUT")%string &&
          negb (WebHook.Method hook =? "PATCH")%string then
    Ret (hook, Ok None)
  else
    match Header_Set (WebHook.Headers hook) "Content-Type" "application/json" with
    | Panic p => Panic p
    | Ret h =>
        let hook := WebHook.with_Headers h hook in
        match json_Marshal env evt with
        | Err e => Ret (hook, Err e)
        | Ok data => Ret (hook, Ok (Some data))
        end
    end.

(** ** doHook *)

(** Lines 227-231: the status check. *)
Definition checkStatus (rsp : Response.t) : option error :=
  if (Response.StatusCode rsp <? 200) || (Response.StatusCode rsp >=? 400) then
    Some (Errorf ("invalid status code calling hook: "
                  +:+ pretty (Response.StatusCode rsp)
                  +:+ ": " +:+ Response.Body rsp))
  else None.

(** Lines 200-203: the method in upper case, POST when it is empty. *)
Definition normalizeMethod (hook : WebHook.t) : WebHook.t :=
  let hook := WebHook.with_Method (strings_ToUpper (WebHook.Method hook)) hook in
  if (WebHook.Method hook =? "")%string then WebHook.with_Method "POST" hook
  else hook.

(** Lines 200-231, the body of the function without its deferred
    closure.  The hook arrives by value, but its header map is the one of
    the caller's hook: the writes of lines 185 and 214 reach it.
    [handleEvent] reads every hook once, so nothing observes that. *)
Definition doHook_body (hook : WebHook.t) (evt : Event.t) : Go (option error) :=
  let hook := normalizeMethod hook in
  let* (hook, body) := lift (webhookBody hook evt) in
  match body with
  | Err e => ret (Some e)
  | Ok body =>
      match http_NewRequest (WebHook.Method hook) (WebHook.URL hook) body with
      | Err e => ret (Some e)
      | Ok req =>
          let req := Request.with_Header (WebHook.Headers hook) req in
          let* req :=
            (if (Request.UserAgent req =? "")%string then
               let* h := lift (Header_Set (Request.Header req)
                                          "User-Agent" defaultUserAgent) in
               ret (Request.with_Header h req)
             else ret req) in
          let* rsp :=
            (fun w =>
               let answer := client_Do env w (WebHook.Insecure hook) req in
               ([call_Do (WebHook.Insecure hook) req answer], Ret answer)) in
          let* _ := emit webhooksLatency_Observe in
          match rsp with
          | Err e => ret (Some e)
          | Ok rsp =>
              let err := checkStatus rsp in
              let* _ := emit rsp_Body_Close in
              ret err
          end
      end
  end.

(** The deferred closure of lines 194-199 runs when the body returns and
    when it panics.  The two panics of the body (the writes to a nil header
    map) happen while the result variable [err] is still nil. *)
Definition doHook (hook : WebHook.t) (evt : Event.t) : Go (option error) :=
  fun w =>
    match doHook_body hook evt w with
    | (t, Ret (Some e)) => (t ++ [webhooksTotal_Inc; webhooksError_Inc], Ret (Some e))
    | (t, Ret None) => (t ++ [webhooksTotal_Inc], Ret None)
    | (t, Panic p) => (t ++ [webhooksTotal_Inc], Panic p)
    end.

(** Lines 167-172: the loop over the hooks. *)
Fixpoint doHooks (hooks : list WebHook.t) (evt : Event.t) : Go unit :=
  match hooks with
  | [] => ret tt
  | h :: hooks' =>
      let* err := doHook h evt in
      let* _ :=
        (match err with
         | Some e => emit (log_hook_error (WebHook.Name h) e)
         | None => ret tt
         end) in
      doHooks hooks' evt
  end.

Definition handleEvent (evtID : string) : Go (option error) :=
  let* evt :=
    (fun w => ([call_GetByID evtID], Ret (event_GetByID env w evtID))) in
  match evt with
  | Err e => ret (Some e)
  | Ok evt =>
      let filter := buildFilter evt in
      let successOnly := (Event.Error evt =? "")%string in
      let* hooks :=
        (fun w => ([call_FindByEvent filter successOnly],
                   Ret (storage_FindByEvent env w filter successOnly))) in
      match hooks with
      | Err e => ret (Some e)
      | Ok hooks =>
          let* _ := doHooks hooks evt in
          ret None
      end
  end.

(** ** The management facade *)

Definition validateURL (u : string) : option error :=
  if (u =? "")%string then
    Some (ValidationError "webhook url must not be empty")
  else
    match url_Parse env u with
    | Some err =>
        Some (ValidationError ("webhook url is not valid: " +:+ error_Error err))
    | None => None
    end.

(** Modelled from the spec: [validation.EnsureValidateName] is not under
    src/.  The spec has [Create] "reject names failing the platform's
    name-syntax rule" and counts a bad name among the validation errors; the
    rule itself and the text of the message are left to the environment. *)
Definition validation_EnsureValidateName (name : string) : option error :=
  if validation_ValidateName env name then None
  else Some (ValidationError (validation_invalidName env)).

Definition Create (w : WebHook.t) : Go (option error) :=
  if (WebHook.Name w =? "")%string then
    ret (Some (ValidationError "webhook name must not be empty"))
  else
    match validation_EnsureValidateName (WebHook.Name w) with
    | Some err => ret (Some err)
    | None =>
        match validateURL (WebHook.URL w) with
        | Some err => ret (Some err)
        | None => fun world => ([call_Insert w], Ret (storage_Insert env world w))
        end
    end.

Definition Update (w : WebHook.t) : Go (option error) :=
  match validateURL (WebHook.URL w) with
  | Some err => ret (Some err)
  | None => fun world => ([call_Update w], Ret (storage_Update env world w))
  end.

Definition Delete (name : string) : Go (option error) :=
  fun world => ([call_Delete name], Ret (storage_Delete env world name)).

End Service.

(** ** The worker and its lifecycle

    [Shutdown], [Notify] and [run] meet on three channels.  Each of them is
    cut at the points where it can block, and a [label] names the piece of
    code that runs next; a schedule is a list of labels.  When two cases of
    a [select] are ready both labels are enabled. *)

(** A [chan struct{}] that is only ever closed and received from. *)
Inductive chan : Type := Open | Closed.

(** Where [run] stands. *)
Inductive run_pc : Type :=
| run_select                 (* blocked in the select of line 135 *)
| run_handling (evtID : string) (* about to call handleEvent, line 138 *)
| run_returned               (* line 143, and the deferred close of line 133 *)
| run_panicked.              (* handleEvent panicked: the process is gone *)

(** Where the one call of [Shutdown] stands. *)
Inductive Shutdown_pc : Type :=
| Shutdown_entry             (* before line 114 *)
| Shutdown_select            (* blocked in the select of line 116 *)
| Shutdown_returned (err : option error)
| Shutdown_panicked.         (* close of a closed channel *)

Record service : Type := {
  evtCh : list string;       (* buffered, capacity chanBufferSize *)
  quitCh : chan;
  doneCh : chan;
  ctx_Done : bool;           (* the channel of ctx.Done() is closed *)
  worker : run_pc;
  caller : Shutdown_pc;
  history : World
}.

(** The pieces of the three functions.  [Notify] and [run] read
    [len(s.evtCh)] for the gauge right after their channel operation; here
    that is part of the same piece. *)
Inductive Shutdown_label : Type :=
| S_close                    (* lines 114-115 *)
| S_done                     (* line 117, then line 121 *)
| S_ctx.                     (* lines 118-119 *)

Inductive Notify_label : Type :=
| N_send                     (* lines 126, 129 *)
| N_quit.                    (* lines 127, 129 *)

Inductive run_label : Type :=
| R_recv                     (* lines 136-137 *)
| R_handle                   (* lines 138-141 *)
| R_quit.                    (* lines 142-143, 133 *)

Inductive label : Type :=
| in_Shutdown (l : Shutdown_label)
| in_Notify (evtID : string) (l : Notify_label)
| in_run (l : run_label)
| ctx_expires.               (* the deadline passes, or the context is cancelled *)

Definition set_caller (c : Shutdown_pc) (s : service) : service :=
  {| evtCh := evtCh s; quitCh := quitCh s; doneCh := doneCh s;
     ctx_Done := ctx_Done s; worker := worker s; caller := c;
     history := history s |}.

Definition set_worker (r : run_pc) (s : service) : service :=
  {| evtCh := evtCh s; quitCh := quitCh s; doneCh := doneCh s;
     ctx_Done := ctx_Done s; worker := r; caller := caller s;
     history := history s |}.

Definition set_quitCh (c : chan) (s : service) : service :=
  {| evtCh := evtCh s; quitCh := c; doneCh := doneCh s;
     ctx_Done := ctx_Done s; worker := worker s; caller := caller s;
     history := history s |}.

Definition set_doneCh (c : chan) (s : service) : service :=
  {| evtCh := evtCh s; quitCh := quitCh s; doneCh := c;
     ctx_Done := ctx_Done s; worker := worker s; caller := caller s;
     history := history s |}.

Definition set_ctx_Done (b : bool) (s : service) : service :=
  {| evtCh := evtCh s; quitCh := quitCh s; doneCh := doneCh s;
     ctx_Done := b; worker := worker s; caller := caller s;
     history := history s |}.

Definition set_evtCh (q : list string) (s : service) : service :=
  {| evtCh := q; quitCh := quitCh s; doneCh := doneCh s;
     ctx_Done := ctx_Done s; worker := worker s; caller := caller s;
     history := history s |}.

Definition add_history (t : list effect) (s : service) : service :=
  {| evtCh := evtCh s; quitCh := quitCh s; doneCh := doneCh s;
     ctx_Done := ctx_Done s; worker := worker s; caller := caller s;
     history := history s ++ t |}.

(** A panic that nobody recovers ends the process. *)
Definition alive (s : service) : bool :=
  match worker s, caller s with
  | run_panicked, _ => false
  | _, Shutdown_panicked => false
  | _, _ => true
  end.

(** The state [WebHookService] leaves behind (lines 95-101). *)
Definition new_service : service :=
  {| evtCh := []; quitCh := Open; doneCh := Open; ctx_Done := false;
     worker := run_select; caller := Shutdown_entry; history := [] |}.

Section Lifecycle.

Variable env : Env.

(** [ctx.Err()] once the context is done. *)
Variable ctx_Err : error.

(** [Shutdown(ctx)], piece by piece. *)
Definition Shutdown (l : Shutdown_label) (s : service) : option service :=
  match l with
  | S_close =>
      match caller s, quitCh s with
      | Shutdown_entry, Open => Some (set_caller Shutdown_select (set_quitCh Closed s))
      | Shutdown_entry, Closed => Some (set_caller Shutdown_panicked s)
      | _, _ => None
      end
  | S_done =>
      match caller s, doneCh s with
      | Shutdown_select, Closed => Some (set_caller (Shutdown_returned None) s)
      | _, _ => None
      end
  | S_ctx =>
      match caller s, ctx_Done s with
      | Shutdown_select, true =>
          Some (set_caller (Shutdown_returned (Some ctx_Err)) s)
      | _, _ => None
      end
  end.

(** [Notify(evtID)], by the case its select takes. *)
Definition Notify (evtID : string) (l : Notify_label) (s : service) : option service :=
  match l with
  | N_send =>
      if (length (evtCh s) <? chanBufferSize)%nat then
        let q := evtCh s ++ [evtID] in
        Some (add_history [webhooksQueue_Set (length q)] (set_evtCh q s))
      else None
  | N_quit =>
      match quitCh s with
      | Closed => Some (add_history [webhooksQueue_Set (length (evtCh s))] s)
      | Open => None
      end
  end.

(** [run()], piece by piece. *)
Definition run (l : run_label) (s : service) : option service :=
  match l with
  | R_recv =>
      match worker s, evtCh s with
      | run_select, evtID :: q =>
          Some (add_history [webhooksQueue_Set (length q)]
                  (set_worker (run_handling evtID) (set_evtCh q s)))
      | _, _ => None
      end
  | R_handle =>
      match worker s with
      | run_handling evtID =>
          match handleEvent env evtID (history s) with
          | (t, Ret None) => Some (set_worker run_select (add_history t s))
          | (t, Ret (Some _)) =>
              Some (set_worker run_select
                      (add_history (t ++ [log_event_error evtID]) s))
          | (t, Panic _) =>
              Some (set_worker run_panicked (set_doneCh Closed (add_history t s)))
          end
      | _ => None
      end
  | R_quit =>
      match worker s, quitCh s with
      | run_select, Closed => Some (set_worker run_returned (set_doneCh Closed s))
      | _, _ => None
      end
  end.

(** One step of the whole: the piece named by the label, if it can run. *)
Definition step (l : label) (s : service) : option service :=
  if negb (alive s) then None else
  match l with
  | in_Shutdown l' => Shutdown l' s
  | in_Notify evtID l' => Notify evtID l' s
  | in_run l' => run l' s
  | ctx_expires => if ctx_Done s then None else Some (set_ctx_Done true s)
  end.

(** Runs a schedule; [None] when one of its labels is not enabled. *)
Fixpoint steps (ls : list label) (s : service) : option service :=
  match ls with
  | [] => Some s
  | l :: ls' =>
      match step l s with
      | Some s' => steps ls' s'
      | None => None
      end
  end.

End Lifecycle.

(** ** Observations on traces *)

Definition is_Total (e : effect) : bool :=
  match e with webhooksTotal_Inc => true | _ => false end.

Definition is_Error (e : effect) : bool :=
  match e with webhooksError_Inc => true | _ => false end.

Definition is_Latency (e : effect) : bool :=
  match e with webhooksLatency_Observe => true | _ => false end.

Definition is_Do (e : effect) : bool :=
  match e with call_Do _ _ _ => true | _ => false end.


(** The effects of one delivery attempt and of its log line. *)
Definition is_delivery (e : effect) : bool :=
  match e with
  | call_Do _ _ _ | rsp_Body_Close | webhooksLatency_Observe
  | webhooksTotal_Inc | webhooksError_Inc | log_hook_error _ _ => true
  | _ => false
  end.


(** The requests handed to the HTTP client, in order. *)
Fixpoint requests (t : list effect) : list Request.t :=
  match t with
  | [] => []
  | call_Do _ req _ :: t' => req :: requests t'
  | _ :: t' => requests t'
  end.

(** The types and the values of the extra targets, in order. *)
Definition extra_types (ts : list ExtraTarget.t) : list string :=
  map (fun t => Target.Type_ (ExtraTarget.Target t)) ts.

Definition extra_values (ts : list ExtraTarget.t) : list string :=
  map (fun t => Target.Value (ExtraTarget.Target t)) ts.

(** ** The runs of doHook *)

(** Lines 212-215 on a header map that is not nil. *)
Definition with_UserAgent (m : gmap string (list string)) : gmap string (list string) :=
  if (Header_Get (Some m) "User-Agent" =? "")%string
  then <["User-Agent" := [defaultUserAgent]]> m
  else m.

(** The request of line 208 once lines 212-215 have given it the header
    map [m]. *)
Definition sent_request (req : Request.t) (m : gmap string (list string)) : Request.t :=
  Request.with_Header (Some (with_UserAgent m)) req.

(** The six ways through [doHook], each with the effects it has and the
    outcome it ends in. *)
Inductive doHook_run (env : Env) (hook : WebHook.t) (evt : Event.t) (w : World)
  : list effect * outcome (option error) -> Prop :=
| run_body_panics p :
    webhookBody env (normalizeMethod env hook) evt = Panic p ->
    doHook_run env hook evt w ([webhooksTotal_Inc], Panic p)
| run_body_fails hook2 e :
    webhookBody env (normalizeMethod env hook) evt = Ret (hook2, Err e) ->
    doHook_run env hook evt w
      ([webhooksTotal_Inc; webhooksError_Inc], Ret (Some e))
| run_request_fails hook2 body e :
    webhookBody env (normalizeMethod env hook) evt = Ret (hook2, Ok body) ->
    http_NewRequest env (WebHook.Method hook2) (WebHook.URL hook2) body = Err e ->
    doHook_run env hook evt w
      ([webhooksTotal_Inc; webhooksError_Inc], Ret (Some e))
| run_header_panics hook2 body req :
    webhookBody env (normalizeMethod env hook) evt = Ret (hook2, Ok body) ->
    http_NewRequest env (WebHook.Method hook2) (WebHook.URL hook2) body = Ok req ->
    WebHook.Headers hook2 = None ->
    doHook_run env hook evt w
      ([webhooksTotal_Inc], Panic "assignment to entry in nil map")
| run_transport_fails hook2 body req m e :
    webhookBody env (normalizeMethod env hook) evt = Ret (hook2, Ok body) ->
    http_NewRequest env (WebHook.Method hook2) (WebHook.URL hook2) body = Ok req ->
    WebHook.Headers hook2 = Some m ->
    client_Do env w (WebHook.Insecure hook2) (sent_request req m) = Err e ->
    doHook_run env hook evt w
      ([call_Do (WebHook.Insecure hook2) (sent_request req m) (Err e);
        webhooksLatency_Observe; webhooksTotal_Inc; webhooksError_Inc],
       Ret (Some e))
| run_answered hook2 body req m rsp :
    webhookBody env (normalizeMethod env hook) evt = Ret (hook2, Ok body) ->
    http_NewRequest env (WebHook.Method hook2) (WebHook.URL hook2) body = Ok req ->
    WebHook.Headers hook2 = Some m ->
    client_Do env w (WebHook.Insecure hook2) (sent_request req m) = Ok rsp ->
    doHook_run env hook evt w
      ([call_Do (WebHook.Insecure hook2) (sent_request req m) (Ok rsp);
        webhooksLatency_Observe; rsp_Body_Close; webhooksTotal_Inc]
         ++ match checkStatus rsp with
            | Some _ => [webhooksError_Inc]
            | None => []
            end,
       Ret (checkStatus rsp)).

(** The branch of [webhookBody] that serializes the event: no literal body
    and a method among POST, PUT and PATCH (lines 177-184). *)
Definition sends_event (hook : WebHook.t) : bool :=
  (WebHook.Body hook =? "")%string &&
  ((WebHook.Method hook =? "POST")%string ||
   (WebHook.Method hook =? "PUT")%string ||
   (WebHook.Method hook =? "PATCH")%string).

(** [needle] occurs in [hay]. *)
Definition string_contains (needle hay : string) : Prop :=
  exists pre post : string, hay = pre +:+ needle +:+ post.

(** ** Sample data

    A deployment event with two extra targets, a few hooks, and an
    environment built from the answers of the collaborators. *)

Definition app_deploy : Event.t :=
  {| Event.UniqueID := "5d1f0e3a";
     Event.Target := {| Target.Type_ := "app"; Target.Value := "myapp" |};
     Event.ExtraTargets :=
       [ {| ExtraTarget.Target := {| Target.Type_ := "team"; Target.Value := "ops" |};
            ExtraTarget.Lock := false |};
         {| ExtraTarget.Target := {| Target.Type_ := "node"; Target.Value := "10.0.0.1" |};
            ExtraTarget.Lock := true |} ];
     Event.Kind := {| Kind.Type_ := "permission"; Kind.Name := "app.deploy" |};
     Event.Error := "" |}.

Definition app_deploy_failed : Event.t :=
  {| Event.UniqueID := "5d1f0e3b";
     Event.Target := Event.Target app_deploy;
     Event.ExtraTargets := [];
     Event.Kind := Event.Kind app_deploy;
     Event.Error := "exit status 1" |}.

(** No literal body, method in lower case, one header of its own. *)
Definition hook_ci : WebHook.t :=
  {| WebHook.Name := "notify-ci";
     WebHook.URL := "http://ci.example.com/hook";
     WebHook.Method := "post";
     WebHook.Headers := Some {[ "X-Token" := ["s3cr3t"] ]};
     WebHook.Body := "";
     WebHook.Insecure := false |}.

(** A literal body and a User-Agent of its own. *)
Definition hook_chat : WebHook.t :=
  {| WebHook.Name := "notify-chat";
     WebHook.URL := "https://chat.example.com/in";
     WebHook.Method := "PUT";
     WebHook.Headers := Some {[ "User-Agent" := ["chat-bot"] ]};
     WebHook.Body := "deployed";
     WebHook.Insecure := true |}.

(** No literal body and a method without a body. *)
Definition hook_ping : WebHook.t :=
  {| WebHook.Name := "ping";
     WebHook.URL := "http://ping.example.com/";
     WebHook.Method := "get";
     WebHook.Headers := Some ∅;
     WebHook.Body := "";
     WebHook.Insecure := false |}.

(** A method that is not a token: [http.NewRequest] refuses it. *)
Definition hook_bad_method : WebHook.t :=
  {| WebHook.Name := "typo";
     WebHook.URL := "http://ci.example.com/hook";
     WebHook.Method := "bad method";
     WebHook.Headers := Some ∅;
     WebHook.Body := "";
     WebHook.Insecure := false |}.

(** The name rule of the platform on sample names: a lower case letter,
    then lower case letters, digits and dashes, at most 40 bytes. *)
Definition sample_ValidateName (name : string) : bool :=
  let lower c := let n := N_of_ascii c in ((97 <=? n) && (n <=? 122))%N in
  let digit c := let n := N_of_ascii c in ((48 <=? n) && (n <=? 57))%N in
  match name with
  | EmptyString => false
  | String c rest =>
      lower c &&
      string_forallb (fun c => lower c || digit c || (N_of_ascii c =? 45)%N) rest &&
      (String.length name <=? 40)%nat
  end.

(** [url.Parse] on sample URLs: a string that starts with a colon has no
    scheme. *)
Definition sample_url_Parse (u : string) : option error :=
  match u with
  | String ":" _ => Some (Foreign "missing protocol scheme")
  | _ => None
  end.

(** An environment that finds [found] for every identifier, matches
    [hooks] for every filter, answers every request with [answer] and has a
    store that accepts every write.  Its serializer stands for
    [json.Marshal]. *)
Definition sample_env (found : result Event.t) (hooks : result (list WebHook.t))
    (answer : result Response.t) : Env :=
  {| unicode_ToUpper := fun s => s;
     json_Marshal := fun evt => Ok ("{UniqueID:" +:+ Event.UniqueID evt +:+ "}");
     url_Parse := sample_url_Parse;
     validation_ValidateName := sample_ValidateName;
     validation_invalidName := "Invalid name";
     event_GetByID := fun _ _ => found;
     storage_FindByEvent := fun _ _ _ => hooks;
     storage_Insert := fun _ _ => None;
     storage_Update := fun _ _ => None;
     storage_Delete := fun _ _ => None;
     client_Do := fun _ _ _ => answer |}.

Definition answer_with (status : Z) : result Response.t :=
  Ok {| Response.StatusCode := status; Response.Body := "upstream says no" |}.

(** The request [doHook] sends for [hook_ci] and [app_deploy]. *)
Definition request_ci : Request.t :=
  {| Request.Method := "POST";
     Request.URL := "http://ci.example.com/hook";
     Request.Header :=
       Some (<["User-Agent" := ["tsuru-webhook-client/1.0"]]>
               (<["Content-Type" := ["application/json"]]>
                  {[ "X-Token" := ["s3cr3t"] ]}));
     Request.Body := Some "{UniqueID:5d1f0e3a}" |}.

(** The request [doHook] sends for [hook_chat]. *)
Definition request_chat : Request.t :=
  {| Request.Method := "PUT";
     Request.URL := "https://chat.example.com/in";
     Request.Header := Some {[ "User-Agent" := ["chat-bot"] ]};
     Request.Body := Some "deployed" |}.

(** The request [doHook] sends for [hook_ping]. *)
Definition request_ping : Request.t :=
  {| Request.Method := "GET";
     Request.URL := "http://ping.example.com/";
     Request.Header := Some {[ "User-Agent" := ["tsuru-webhook-client/1.0"] ]};
     Request.Body := None |}.

(** A hook that passes the checks of [Create] on the sample rule and the
    sample parser, and four that do not. *)
Definition hook_no_name : WebHook.t :=
  {| WebHook.Name := ""; WebHook.URL := WebHook.URL hook_ci;
     WebHook.Method := "POST"; WebHook.Headers := None;
     WebHook.Body := ""; WebHook.Insecure := false |}.

Definition hook_bad_name : WebHook.t :=
  {| WebHook.Name := "Notify_CI"; WebHook.URL := WebHook.URL hook_ci;
     WebHook.Method := "POST"; WebHook.Headers := None;
     WebHook.Body := ""; WebHook.Insecure := false |}.

Definition hook_no_url : WebHook.t :=
  {| WebHook.Name := "notify-ci"; WebHook.URL := "";
     WebHook.Method := "POST"; WebHook.Headers := None;
     WebHook.Body := ""; WebHook.Insecure := false |}.

Definition hook_bad_url : WebHook.t :=
  {| WebHook.Name := "notify-ci"; WebHook.URL := ":8080/hook";
     WebHook.Method := "POST"; WebHook.Headers := None;
     WebHook.Body := ""; WebHook.Insecure := false |}.

(** ** Further observations *)

Definition is_Close (e : effect) : bool :=
  match e with rsp_Body_Close => true | _ => false end.

(** The identifiers handed to [event.GetByID], in order. *)
Fixpoint fetched (t : list effect) : list string :=
  match t with
  | [] => []
  | call_GetByID evtID :: t' => evtID :: fetched t'
  | _ :: t' => fetched t'
  end.

(** The identifiers a schedule sends into [evtCh], in order: those of the
    calls of [Notify] whose select took the send. *)
Fixpoint accepted (ls : list label) : list string :=
  match ls with
  | [] => []
  | in_Notify evtID N_send :: ls' => evtID :: accepted ls'
  | _ :: ls' => accepted ls'
  end.

(** The identifier [run] has received and not yet handled. *)
Definition in_hand (r : run_pc) : list string :=
  match r with
  | run_handling evtID => [evtID]
  | _ => []
  end.

(** A byte among a-z. *)
Definition is_lower (c : ascii) : bool :=
  let n := N_of_ascii c in ((97 <=? n) && (n <=? 122))%N.

(** A hook with an empty name and one with a URL without scheme, for
    [Update]. *)
Definition hook_renamed : WebHook.t :=
  {| WebHook.Name := ""; WebHook.URL := "http://ci.example.com/v2";
     WebHook.Method := "POST"; WebHook.Headers := Some ∅;
     WebHook.Body := ""; WebHook.Insecure := false |}.

(** A hook whose URL the sample parser refuses, with a header map. *)
Definition hook_no_scheme : WebHook.t :=
  {| WebHook.Name := "notify-ci"; WebHook.URL := ":8080/hook";
     WebHook.Method := "POST"; WebHook.Headers := Some ∅;
     WebHook.Body := ""; WebHook.Insecure := false |}.

Definition is_gauge (e : effect) : bool :=
  match e with webhooksQueue_Set _ => true | _ => false end.



(** Sample states of the service: the worker has returned with one
    identifier in the queue; the same after [Shutdown] returned and one
    more identifier was sent; the quit channel just closed; the worker about
    to handle one identifier with another one queued. *)
Definition svc_stopped : service :=
  {| evtCh := ["e1"]; quitCh := Closed; doneCh := Closed; ctx_Done := false;
     worker := run_returned; caller := Shutdown_select;
     history := [webhooksQueue_Set 1] |}.

Definition svc_stopped_later : service :=
  {| evtCh := ["e1"; "e2"]; quitCh := Closed; doneCh := Closed; ctx_Done := false;
     worker := run_returned; caller := Shutdown_returned None;
     history := [webhooksQueue_Set 1; webhooksQueue_Set 2] |}.

Definition svc_quitting : service :=
  {| evtCh := []; quitCh := Closed; doneCh := Open; ctx_Done := false;
     worker := run_select; caller := Shutdown_select; history := [] |}.

Definition svc_quitting_later : service :=
  {| evtCh := ["e1"]; quitCh := Closed; doneCh := Open; ctx_Done := false;
     worker := run_select; caller := Shutdown_select;
     history := [webhooksQueue_Set 1] |}.

Definition svc_handling : service :=
  {| evtCh := ["e2"]; quitCh := Open; doneCh := Open; ctx_Done := false;
     worker := run_handling "e1"; caller := Shutdown_entry; history := [] |}.

(** * Properties *)



Lemma requests_app t1 t2 : requests (t1 ++ t2) = requests t1 ++ requests t2.
Proof.
  induction t1 as [|e t1 IH]; simpl; [reflexivity |].
  destruct e; simpl; rewrite ?IH; reflexivity.
Qed.

(** ** The filter *)

Lemma buildFilter_fold ts f :
  let g := fun filter t =>
    {| WebHookEventFilter.TargetTypes :=
         WebHookEventFilter.TargetTypes filter
           ++ [Target.Type_ (ExtraTarget.Target t)];
       WebHookEventFilter.TargetValues :=
         WebHookEventFilter.TargetValues filter
           ++ [Target.Value (ExtraTarget.Target t)];
       WebHookEventFilter.KindTypes := WebHookEventFilter.KindTypes filter;
       WebHookEventFilter.KindNames := WebHookEventFilter.KindNames filter |} in
  fold_left g ts f =
  {| WebHookEventFilter.TargetTypes :=
       WebHookEventFilter.TargetTypes f ++ extra_types ts;
     WebHookEventFilter.TargetValues :=
       WebHookEventFilter.TargetValues f ++ extra_values ts;
     WebHookEventFilter.KindTypes := WebHookEventFilter.KindTypes f;
     WebHookEventFilter.KindNames := WebHookEventFilter.KindNames f |}.
Proof.
  intros g. revert f.
  induction ts as [|t ts IH]; intros f.
  - simpl. rewrite !app_nil_r. destruct f; reflexivity.
  - simpl. rewrite IH. unfold g; simpl. rewrite <- !app_assoc. reflexivity.
Qed.

Lemma buildFilter_eq evt :
  buildFilter evt =
  {| WebHookEventFilter.TargetTypes :=
       Target.Type_ (Event.Target evt) :: extra_types (Event.ExtraTargets evt);
     WebHookEventFilter.TargetValues :=
       Target.Value (Event.Target evt) :: extra_values (Event.ExtraTargets evt);
     WebHookEventFilter.KindTypes := [Kind.Type_ (Event.Kind evt)];
     WebHookEventFilter.KindNames := [Kind.Name (Event.Kind evt)] |}.
Proof. unfold buildFilter. rewrite buildFilter_fold. reflexivity. Qed.

(** ** doHook, run by run *)

Lemma doHook_runs env hook evt w :
  doHook_run env hook evt w (doHook env hook evt w).
Proof.
  unfold doHook, doHook_body, Request.UserAgent.
  cbv [bind lift ret emit].
  destruct (webhookBody env (normalizeMethod env hook) evt)
    as [[hook2 [body | e]] | p] eqn:Hbody; cbv beta iota zeta.
  - destruct (http_NewRequest env (WebHook.Method hook2) (WebHook.URL hook2) body)
      as [req | e] eqn:Hreq; cbv beta iota zeta.
    + destruct (WebHook.Headers hook2) as [m |] eqn:Hm.
      * assert (Hsent :
          (if (Header_Get (Some m) "User-Agent" =? "")%string
           then Request.with_Header (Some (<["User-Agent" := [defaultUserAgent]]> m))
                  (Request.with_Header (Some m) req)
           else Request.with_Header (Some m) req) = sent_request req m).
        { unfold sent_request, with_UserAgent.
          destruct (Header_Get (Some m) "User-Agent" =? "")%string; reflexivity. }
        cbn [Request.Header Request.with_Header Header_Set].
        destruct (Header_Get (Some m) "User-Agent" =? "")%string eqn:Hua;
          cbv beta iota zeta; cbn [app]; rewrite ?app_nil_r; rewrite Hsent;
          destruct (client_Do env w (WebHook.Insecure hook2) (sent_request req m))
            as [rsp | e] eqn:Hdo; cbv beta iota zeta; cbn [app].
        all: try (exact (run_transport_fails env hook evt w hook2 body req m e
                    Hbody Hreq Hm Hdo)).
        all: pose proof (run_answered env hook evt w hook2 body req m rsp
                           Hbody Hreq Hm Hdo) as R;
             destruct (checkStatus rsp) eqn:Hst; exact R.
      * cbn [Request.Header Request.with_Header Header_Set Header_Get].
        cbn.
        exact (run_header_panics env hook evt w hook2 body req Hbody Hreq Hm).
    + exact (run_request_fails env hook evt w hook2 body e Hbody Hreq).
  - exact (run_body_fails env hook evt w hook2 e Hbody).
  - exact (run_body_panics env hook evt w p Hbody).
Qed.

(** ** webhookBody, case by case *)

Lemma webhookBody_cases env hook evt :
  (WebHook.Body hook <> "" /\
   webhookBody env hook evt = Ret (hook, Ok (Some (WebHook.Body hook))))
  \/ (WebHook.Body hook = "" /\ sends_event hook = false /\
      webhookBody env hook evt = Ret (hook, Ok None))
  \/ (sends_event hook = true /\ WebHook.Headers hook = None /\
      webhookBody env hook evt = Panic "assignment to entry in nil map")
  \/ (sends_event hook = true /\
      exists m, WebHook.Headers hook = Some m /\
        webhookBody env hook evt =
        Ret (WebHook.with_Headers
               (Some (<["Content-Type" := ["application/json"]]> m)) hook,
             match json_Marshal env evt with
             | Ok data => Ok (Some data)
             | Err e => Err e
             end)).
Proof.
  unfold webhookBody, sends_event.
  destruct (WebHook.Body hook =? "")%string eqn:Hb; cbn [negb andb].
  - apply String.eqb_eq in Hb.
    destruct (WebHook.Method hook =? "POST")%string,
             (WebHook.Method hook =? "PUT")%string,
             (WebHook.Method hook =? "PATCH")%string; cbn [negb andb orb].
    8: { right; left. auto. }
    all: right; right;
      destruct (WebHook.Headers hook) as [m |]; cbn [Header_Set];
      [ right; split; [reflexivity |]; exists m; split; [reflexivity |];
        destruct (json_Marshal env evt); reflexivity
      | left; auto ].
  - apply String.eqb_neq in Hb. left. auto.
Qed.

Lemma webhookBody_keeps env hook evt hook2 r :
  webhookBody env hook evt = Ret (hook2, r) ->
  WebHook.Name hook2 = WebHook.Name hook /\
  WebHook.URL hook2 = WebHook.URL hook /\
  WebHook.Method hook2 = WebHook.Method hook /\
  WebHook.Body hook2 = WebHook.Body hook /\
  WebHook.Insecure hook2 = WebHook.Insecure hook /\
  (WebHook.Headers hook <> None -> WebHook.Headers hook2 <> None).
Proof.
  intros H.
  destruct (webhookBody_cases env hook evt)
    as [[_ E] | [[_ [_ E]] | [[_ [_ E]] | [_ [m [Hm E]]]]]];
    rewrite E in H; inversion H; subst; clear H; cbn; auto 10.
Qed.

Lemma normalizeMethod_Method env hook :
  WebHook.Method (normalizeMethod env hook) =
  if (strings_ToUpper env (WebHook.Method hook) =? "")%string then "POST"
  else strings_ToUpper env (WebHook.Method hook).
Proof.
  unfold normalizeMethod; cbn.
  destruct (strings_ToUpper env (WebHook.Method hook) =? "")%string; reflexivity.
Qed.

Lemma normalizeMethod_keeps env hook :
  WebHook.Name (normalizeMethod env hook) = WebHook.Name hook /\
  WebHook.URL (normalizeMethod env hook) = WebHook.URL hook /\
  WebHook.Headers (normalizeMethod env hook) = WebHook.Headers hook /\
  WebHook.Body (normalizeMethod env hook) = WebHook.Body hook /\
  WebHook.Insecure (normalizeMethod env hook) = WebHook.Insecure hook.
Proof.
  unfold normalizeMethod; cbn.
  destruct (strings_ToUpper env (WebHook.Method hook) =? "")%string;
    cbn; auto.
Qed.

Lemma normalizeMethod_nonempty env hook :
  WebHook.Method (normalizeMethod env hook) <> "".
Proof.
  rewrite normalizeMethod_Method.
  destruct (strings_ToUpper env (WebHook.Method hook) =? "")%string eqn:E.
  - discriminate.
  - apply String.eqb_neq in E. exact E.
Qed.

Lemma http_NewRequest_Ok env method url body req :
  method <> "" ->
  http_NewRequest env method url body = Ok req ->
  Request.Method req = method /\ Request.URL req = url /\
  Request.Body req = body /\ validMethod method = true /\
  url_Parse env url = None.
Proof.
  intros Hne. unfold http_NewRequest.
  apply String.eqb_neq in Hne. rewrite Hne.
  destruct (validMethod method); cbn [negb]; [| discriminate].
  destruct (url_Parse env url); [discriminate |].
  intros H; inversion H; subst; cbn; auto.
Qed.


(** Splits a goal about [doHook env hook evt w] along the six runs. *)
Ltac run_cases env hook evt w :=
  let R := fresh "R" in
  let r := fresh "r" in
  generalize (doHook_runs env hook evt w);
  generalize (doHook env hook evt w);
  intros r R;
  destruct R as [p Hb | hook2 e Hb | hook2 body e Hb Hq
                | hook2 body req Hb Hq Hm | hook2 body req m e Hb Hq Hm Hd
                | hook2 body req m rsp Hb Hq Hm Hd].

Lemma doHook_effects_delivery env hook evt w :
  Forall (fun e => is_delivery e = true) (effects (doHook env hook evt w)).
Proof.
  run_cases env hook evt w; unfold effects; cbn [fst app];
    try destruct (checkStatus rsp); cbn [app];
    repeat constructor.
Qed.


Lemma doHook_count_Total env hook evt w :
  count is_Total (effects (doHook env hook evt w)) = 1%nat.
Proof.
  run_cases env hook evt w; unfold effects; cbn [fst app];
    try destruct (checkStatus rsp); reflexivity.
Qed.

Lemma doHook_count_Error env hook evt w :
  count is_Error (effects (doHook env hook evt w)) =
  match outcome_of (doHook env hook evt w) with
  | Ret (Some _) => 1%nat
  | _ => 0%nat
  end.
Proof.
  run_cases env hook evt w; unfold effects, outcome_of; cbn [fst snd app];
    try destruct (checkStatus rsp); reflexivity.
Qed.


Lemma doHook_count_Latency env hook evt w :
  count is_Latency (effects (doHook env hook evt w)) =
  count is_Do (effects (doHook env hook evt w)) /\
  (count is_Do (effects (doHook env hook evt w)) <= 1)%nat.
Proof.
  run_cases env hook evt w; unfold effects; cbn [fst app];
    try destruct (checkStatus rsp); cbn; split; lia.
Qed.

(** What the request of a run that reaches the client is made of. *)
Lemma doHook_request env hook evt w ins rq ans :
  In (call_Do ins rq ans) (effects (doHook env hook evt w)) ->
  exists hook2 body m,
    webhookBody env (normalizeMethod env hook) evt = Ret (hook2, Ok body) /\
    WebHook.Headers hook2 = Some m /\
    ins = WebHook.Insecure hook /\
    ans = client_Do env w ins rq /\
    validMethod (WebHook.Method (normalizeMethod env hook)) = true /\
    url_Parse env (WebHook.URL hook) = None /\
    rq = {| Request.Method := WebHook.Method (normalizeMethod env hook);
            Request.URL := WebHook.URL hook;
            Request.Header := Some (with_UserAgent m);
            Request.Body := body |}.
Proof.
  intros HIn.
  assert (K : forall hook2 body req0 m a,
             webhookBody env (normalizeMethod env hook) evt = Ret (hook2, Ok body) ->
             http_NewRequest env (WebHook.Method hook2) (WebHook.URL hook2) body = Ok req0 ->
             WebHook.Headers hook2 = Some m ->
             client_Do env w (WebHook.Insecure hook2) (sent_request req0 m) = a ->
             call_Do (WebHook.Insecure hook2) (sent_request req0 m) a
               = call_Do ins rq ans ->
             exists hook2 body m,
               webhookBody env (normalizeMethod env hook) evt = Ret (hook2, Ok body) /\
               WebHook.Headers hook2 = Some m /\
               ins = WebHook.Insecure hook /\
               ans = client_Do env w ins rq /\
               validMethod (WebHook.Method (normalizeMethod env hook)) = true /\
               url_Parse env (WebHook.URL hook) = None /\
               rq = {| Request.Method := WebHook.Method (normalizeMethod env hook);
                       Request.URL := WebHook.URL hook;
                       Request.Header := Some (with_UserAgent m);
                       Request.Body := body |}).
  { intros hook2 body req0 m a Hb Hq Hm Hd Heq.
    destruct (webhookBody_keeps _ _ _ _ _ Hb) as (_ & Hu & Hme & _ & Hi & _).
    destruct (normalizeMethod_keeps env hook) as (_ & Hu' & _ & _ & Hi').
    rewrite Hme, Hu, Hu' in Hq.
    destruct (http_NewRequest_Ok _ _ _ _ _ (normalizeMethod_nonempty env hook) Hq)
      as (Q1 & Q2 & Q3 & Q4 & Q5).
    inversion Heq; subst ins rq ans.
    exists hook2, body, m. rewrite Hi, Hi' in *.
    repeat split; auto.
    unfold sent_request, Request.with_Header. rewrite Q1, Q2, Q3. reflexivity. }
  revert HIn.
  run_cases env hook evt w; unfold effects; cbn [fst app]; intros HIn.
  - destruct HIn as [H | []]; discriminate.
  - destruct HIn as [H | [H | []]]; discriminate.
  - destruct HIn as [H | [H | []]]; discriminate.
  - destruct HIn as [H | []]; discriminate.
  - destruct HIn as [H | [H | [H | [H | []]]]]; try discriminate.
    eapply K; eauto.
  - destruct HIn as [H | [H | [H | [H | H]]]]; try discriminate.
    + eapply K; eauto.
    + destruct (checkStatus rsp); cbn in H;
        [destruct H as [H | []]; discriminate | destruct H].
Qed.




(** ** The loop over the hooks *)

Lemma doHooks_cons env h hs evt w :
  doHooks env (h :: hs) evt w =
  match doHook env h evt w with
  | (t, Ret None) =>
      (t ++ effects (doHooks env hs evt (w ++ t)),
       outcome_of (doHooks env hs evt (w ++ t)))
  | (t, Ret (Some e)) =>
      ((t ++ [log_hook_error (WebHook.Name h) e])
         ++ effects (doHooks env hs evt (w ++ t ++ [log_hook_error (WebHook.Name h) e])),
       outcome_of (doHooks env hs evt (w ++ t ++ [log_hook_error (WebHook.Name h) e])))
  | (t, Panic p) => (t, Panic p)
  end.
Proof.
  cbn [doHooks]. unfold bind at 1.
  destruct (doHook env h evt w) as [t [[e |] | p]]; [| | reflexivity].
  - unfold bind, emit, effects, outcome_of. rewrite <- app_assoc.
    destruct (doHooks env hs evt (w ++ t ++ [log_hook_error (WebHook.Name h) e]))
      as [t2 o]; cbn. rewrite <- app_assoc. reflexivity.
  - unfold bind, ret, effects, outcome_of. rewrite app_nil_r.
    destruct (doHooks env hs evt (w ++ t)) as [t2 o]; cbn. reflexivity.
Qed.

Lemma doHooks_effects_delivery env evt hooks :
  forall w, Forall (fun e => is_delivery e = true) (effects (doHooks env hooks evt w)).
Proof.
  induction hooks as [|h hs IH]; intros w.
  - constructor.
  - rewrite doHooks_cons.
    pose proof (doHook_effects_delivery env h evt w) as D.
    destruct (doHook env h evt w) as [t [[e |] | p]]; unfold effects in *;
      cbn [fst] in *.
    + rewrite !Forall_app. repeat split; auto.
    + rewrite Forall_app. split; auto.
    + exact D.
Qed.


(** ** handleEvent, step by step *)

Lemma handleEvent_GetByID_fails env evtID w e :
  event_GetByID env w evtID = Err e ->
  handleEvent env evtID w = ([call_GetByID evtID], Ret (Some e)).
Proof.
  intros H. unfold handleEvent, bind, ret. rewrite H. reflexivity.
Qed.

Lemma handleEvent_FindByEvent_fails env evtID w evt e :
  event_GetByID env w evtID = Ok evt ->
  storage_FindByEvent env (w ++ [call_GetByID evtID]) (buildFilter evt)
    (Event.Error evt =? "")%string = Err e ->
  handleEvent env evtID w =
  ([call_GetByID evtID;
    call_FindByEvent (buildFilter evt) (Event.Error evt =? "")%string],
   Ret (Some e)).
Proof.
  intros H1 H2. unfold handleEvent, bind, ret. rewrite H1. cbn.
  rewrite H2. reflexivity.
Qed.

Lemma handleEvent_found env evtID w evt hooks :
  event_GetByID env w evtID = Ok evt ->
  storage_FindByEvent env (w ++ [call_GetByID evtID]) (buildFilter evt)
    (Event.Error evt =? "")%string = Ok hooks ->
  let w2 := w ++ [call_GetByID evtID;
                  call_FindByEvent (buildFilter evt) (Event.Error evt =? "")%string] in
  handleEvent env evtID w =
  (call_GetByID evtID
     :: call_FindByEvent (buildFilter evt) (Event.Error evt =? "")%string
     :: effects (doHooks env hooks evt w2),
   match outcome_of (doHooks env hooks evt w2) with
   | Ret _ => Ret None
   | Panic p => Panic p
   end).
Proof.
  intros H1 H2 w2. unfold handleEvent, bind, ret. rewrite H1. cbn.
  rewrite H2. cbn. unfold w2, effects, outcome_of.
  replace ((w ++ [call_GetByID evtID]) ++
           [call_FindByEvent (buildFilter evt) (Event.Error evt =? "")%string])
    with (w ++ [call_GetByID evtID;
                call_FindByEvent (buildFilter evt) (Event.Error evt =? "")%string])
    by (rewrite <- app_assoc; reflexivity).
  destruct (doHooks env hooks evt _) as [t [[] | p]]; cbn;
    rewrite ?app_nil_r; reflexivity.
Qed.

(** After a successful fetch the effects are the fetch, one store lookup
    with the filter of the event, and deliveries. *)
Lemma handleEvent_effects env evtID w evt :
  event_GetByID env w evtID = Ok evt ->
  exists rest : list effect,
    effects (handleEvent env evtID w)
      = call_GetByID evtID
          :: call_FindByEvent (buildFilter evt) (Event.Error evt =? "")%string
          :: rest /\
    Forall (fun e => is_delivery e = true) rest.
Proof.
  intros Hget.
  destruct (storage_FindByEvent env (w ++ [call_GetByID evtID]) (buildFilter evt)
              (Event.Error evt =? "")%string) as [hooks | e] eqn:Hfind.
  - eexists. split.
    + rewrite (handleEvent_found env evtID w evt hooks Hget Hfind).
      unfold effects at 1; cbn [fst]. reflexivity.
    + apply doHooks_effects_delivery.
  - exists []. split.
    + rewrite (handleEvent_FindByEvent_fails env evtID w evt e Hget Hfind).
      reflexivity.
    + constructor.
Qed.

Lemma lookup_map_Some {A B : Type} (f : A -> B) (l : list A) (i : nat) (x : A) :
  l !! i = Some x -> map f l !! i = Some (f x).
Proof.
  revert i. induction l as [|y l IH]; intros [|i]; cbn; try discriminate.
  - intros H; inversion H; reflexivity.
  - apply IH.
Qed.

(** ** Strings *)

Lemma string_app_assoc (a b c : string) : (a +:+ b) +:+ c = a +:+ b +:+ c.
Proof.
  induction a as [|x a IH]; [reflexivity |].
  change (String x ((a +:+ b) +:+ c) = String x (a +:+ b +:+ c)).
  rewrite IH. reflexivity.
Qed.

Lemma string_app_nil_r (a : string) : a +:+ "" = a.
Proof.
  induction a as [|x a IH]; [reflexivity |].
  change (String x (a +:+ "") = String x a). rewrite IH. reflexivity.
Qed.

(** ** The answer decides the outcome *)

Lemma doHook_answered env hook evt w ins rq rs :
  In (call_Do ins rq (Ok rs)) (effects (doHook env hook evt w)) ->
  outcome_of (doHook env hook evt w) = Ret (checkStatus rs).
Proof.
  run_cases env hook evt w; unfold effects, outcome_of; cbn [fst snd app];
    intros HIn.
  - destruct HIn as [H | []]; discriminate.
  - destruct HIn as [H | [H | []]]; discriminate.
  - destruct HIn as [H | [H | []]]; discriminate.
  - destruct HIn as [H | []]; discriminate.
  - destruct HIn as [H | [H | [H | [H | []]]]]; discriminate.
  - destruct HIn as [H | [H | [H | [H | H]]]]; try discriminate.
    + inversion H; reflexivity.
    + destruct (checkStatus rsp); cbn in H;
        [destruct H as [H | []]; discriminate | destruct H].
Qed.

Lemma checkStatus_ok rsp :
  200 <= Response.StatusCode rsp < 400 -> checkStatus rsp = None.
Proof.
  intros [H1 H2]. unfold checkStatus.
  destruct (Z.ltb_spec (Response.StatusCode rsp) 200); [lia |].
  rewrite Z.geb_leb.
  destruct (Z.leb_spec 400 (Response.StatusCode rsp)); [lia | reflexivity].
Qed.

Lemma checkStatus_bad rsp :
  ~ (200 <= Response.StatusCode rsp < 400) ->
  checkStatus rsp =
  Some (Errorf ("invalid status code calling hook: "
                +:+ pretty (Response.StatusCode rsp)
                +:+ ": " +:+ Response.Body rsp)).
Proof.
  intros H. unfold checkStatus.
  destruct (Z.ltb_spec (Response.StatusCode rsp) 200); [reflexivity |].
  rewrite Z.geb_leb.
  destruct (Z.leb_spec 400 (Response.StatusCode rsp)); [reflexivity | lia].
Qed.

Lemma doHook_normalized env hook hook' evt w :
  normalizeMethod env hook = normalizeMethod env hook' ->
  doHook env hook evt w = doHook env hook' evt w.
Proof.
  intros H. unfold doHook, doHook_body. rewrite H. reflexivity.
Qed.

(** ** The header map of a request *)

Lemma with_UserAgent_Content_Type (m : gmap string (list string)) :
  with_UserAgent m !! "Content-Type" = m !! "Content-Type".
Proof.
  unfold with_UserAgent.
  destruct (Header_Get (Some m) "User-Agent" =? "")%string; [| reflexivity].
  apply lookup_insert_ne. discriminate.
Qed.

Lemma sends_event_true hook :
  sends_event hook = true <->
  WebHook.Body hook = "" /\
  (WebHook.Method hook = "POST" \/ WebHook.Method hook = "PUT" \/
   WebHook.Method hook = "PATCH").
Proof.
  unfold sends_event.
  rewrite andb_true_iff, !orb_true_iff, !String.eqb_eq. tauto.
Qed.

Lemma sends_event_false hook :
  sends_event hook = false <->
  WebHook.Body hook <> "" \/
  (WebHook.Method hook <> "POST" /\ WebHook.Method hook <> "PUT" /\
   WebHook.Method hook <> "PATCH").
Proof.
  unfold sends_event.
  rewrite andb_false_iff, !orb_false_iff, !String.eqb_neq. tauto.
Qed.

(** The body and the header map of the request, from the hook. *)
Lemma doHook_request_parts env hook evt w ins rq ans :
  In (call_Do ins rq ans) (effects (doHook env hook evt w)) ->
  exists m : gmap string (list string),
    WebHook.Headers hook = Some m /\
    ((WebHook.Body hook <> "" /\
      Request.Body rq = Some (WebHook.Body hook) /\
      Request.Header rq = Some (with_UserAgent m))
     \/ (WebHook.Body hook = "" /\
         sends_event (normalizeMethod env hook) = false /\
         Request.Body rq = None /\
         Request.Header rq = Some (with_UserAgent m))
     \/ (sends_event (normalizeMethod env hook) = true /\
         (exists data, json_Marshal env evt = Ok data /\
                       Request.Body rq = Some data) /\
         Request.Header rq =
         Some (with_UserAgent (<["Content-Type" := ["application/json"]]> m)))).
Proof.
  intros HIn. apply doHook_request in HIn.
  destruct HIn as (hook2 & body & m2 & Hb & Hm2 & _ & _ & _ & _ & ->).
  destruct (normalizeMethod_keeps env hook) as (_ & _ & Hh & Hbd & _).
  cbn [Request.Body Request.Header].
  destruct (webhookBody_cases env (normalizeMethod env hook) evt)
    as [[Hne E] | [[He [Hs E]] | [[_ [_ E]] | [Hs [m [Hm E]]]]]];
    rewrite E in Hb; try discriminate.
  - inversion Hb; subst. rewrite Hh in Hm2. rewrite Hbd in *.
    exists m2. split; [exact Hm2 |]. left. auto.
  - inversion Hb; subst. rewrite Hh in Hm2. rewrite Hbd in *.
    exists m2. split; [exact Hm2 |]. right; left. auto.
  - rewrite Hh in Hm. exists m. split; [exact Hm |]. right; right.
    destruct (json_Marshal env evt) as [data | e]; inversion Hb; subst.
    cbn in Hm2. inversion Hm2; subst. split; [exact Hs |]. split; eauto.
Qed.

(** ** When a request is sent, and the nil header map *)

(** With a header map that is not nil, a method that is a token, a URL
    that parses and, where the event is serialized, a serialization that
    succeeds, [doHook] hands one request to the client. *)
Lemma doHook_sends env hook evt w hdr :
  WebHook.Headers hook = Some hdr ->
  validMethod (WebHook.Method (normalizeMethod env hook)) = true ->
  url_Parse env (WebHook.URL hook) = None ->
  (sends_event (normalizeMethod env hook) = true ->
   exists data, json_Marshal env evt = Ok data) ->
  exists rq ans,
    In (call_Do (WebHook.Insecure hook) rq ans) (effects (doHook env hook evt w)).
Proof.
  intros Hhdr Hv Hu Hj.
  destruct (normalizeMethod_keeps env hook) as (_ & Hu' & Hh' & _ & Hi').
  assert (Hreq : forall hook2 body,
             webhookBody env (normalizeMethod env hook) evt = Ret (hook2, Ok body) ->
             exists rq0,
               http_NewRequest env (WebHook.Method hook2) (WebHook.URL hook2) body
               = Ok rq0).
  { intros hook2 body Hb.
    destruct (webhookBody_keeps _ _ _ _ _ Hb) as (_ & Ku & Km & _).
    unfold http_NewRequest. rewrite Km, Ku, Hu', Hu.
    pose proof (normalizeMethod_nonempty env hook) as Hne.
    apply String.eqb_neq in Hne. rewrite Hne, Hv. cbn. eauto. }
  assert (Hnn : forall hook2 r,
             webhookBody env (normalizeMethod env hook) evt = Ret (hook2, r) ->
             WebHook.Headers hook2 <> None).
  { intros hook2 r Hb.
    destruct (webhookBody_keeps _ _ _ _ _ Hb) as (_ & _ & _ & _ & _ & K).
    apply K. rewrite Hh', Hhdr. discriminate. }
  assert (Hi : forall hook2 r,
             webhookBody env (normalizeMethod env hook) evt = Ret (hook2, r) ->
             WebHook.Insecure hook2 = WebHook.Insecure hook).
  { intros hook2 r Hb.
    destruct (webhookBody_keeps _ _ _ _ _ Hb) as (_ & _ & _ & _ & K & _).
    rewrite K. exact Hi'. }
  run_cases env hook evt w; unfold effects; cbn [fst app].
  - exfalso.
    destruct (webhookBody_cases env (normalizeMethod env hook) evt)
      as [[_ E] | [[_ [_ E]] | [[_ [Hn _]] | [_ [m' [_ E]]]]]];
      try (rewrite E in Hb; discriminate).
    rewrite Hh', Hhdr in Hn. discriminate.
  - exfalso.
    destruct (webhookBody_cases env (normalizeMethod env hook) evt)
      as [[_ E] | [[_ [_ E]] | [[_ [_ E]] | [Hs [m' [_ E]]]]]];
      rewrite E in Hb; try discriminate.
    destruct (Hj Hs) as [data Hd]. rewrite Hd in Hb. discriminate.
  - exfalso. destruct (Hreq _ _ Hb) as [rq0 Hq']. rewrite Hq in Hq'. discriminate.
  - exfalso. apply (Hnn _ _ Hb). exact Hm.
  - rewrite <- (Hi _ _ Hb). eexists _, _. left. reflexivity.
  - rewrite <- (Hi _ _ Hb). eexists _, _. left. reflexivity.
Qed.

(** A hook whose header map is nil never has a request sent: line 185 or
    line 214 writes to the nil map and panics, unless the body or the
    request could not be built, which is returned as an error. *)
Lemma doHook_nil_Headers env hook evt w :
  WebHook.Headers hook = None ->
  count is_Do (effects (doHook env hook evt w)) = 0%nat /\
  outcome_of (doHook env hook evt w) <> Ret None.
Proof.
  intros Hn.
  destruct (normalizeMethod_keeps env hook) as (_ & _ & Hh' & _ & _).
  assert (K : forall hook2 r m,
             webhookBody env (normalizeMethod env hook) evt = Ret (hook2, r) ->
             WebHook.Headers hook2 = Some m -> False).
  { intros hook2 r m Hb Hm.
    destruct (webhookBody_cases env (normalizeMethod env hook) evt)
      as [[_ E] | [[_ [_ E]] | [[_ [_ E]] | [_ [m' [Hm' E]]]]]];
      rewrite E in Hb; try discriminate.
    - inversion Hb; subst. rewrite Hh', Hn in Hm. discriminate.
    - inversion Hb; subst. rewrite Hh', Hn in Hm. discriminate.
    - rewrite Hh', Hn in Hm'. discriminate. }
  run_cases env hook evt w; unfold effects, outcome_of; cbn [fst snd app];
    try (split; [reflexivity | discriminate]);
    exfalso; eapply K; eauto.
Qed.

(** * The specification, claim by claim *)

(** C1: for an event with k extra targets, the filter [handleEvent] hands
    to the store has k+1 target types and k+1 target values; entry 0 is the
    type and the value of the primary target and entry i+1 is the type and
    the value of extra target number i (counted from 0), in order; the kind
    types and the kind names hold one entry each, those of the event's
    kind.  That filter goes into the one call of [FindByEvent]. *)
Theorem handleEvent_filter_targets :
  forall (env : Env) (evtID : string) (w : World) (evt : Event.t),
    event_GetByID env w evtID = Ok evt ->
    exists (filter : WebHookEventFilter.t) (successOnly : bool) (rest : list effect),
      effects (handleEvent env evtID w)
        = call_GetByID evtID :: call_FindByEvent filter successOnly :: rest /\
      Forall (fun e => is_delivery e = true) rest /\
      length (WebHookEventFilter.TargetTypes filter)
        = S (length (Event.ExtraTargets evt)) /\
      length (WebHookEventFilter.TargetValues filter)
        = S (length (Event.ExtraTargets evt)) /\
      WebHookEventFilter.TargetTypes filter !! 0%nat
        = Some (Target.Type_ (Event.Target evt)) /\
      WebHookEventFilter.TargetValues filter !! 0%nat
        = Some (Target.Value (Event.Target evt)) /\
      (forall (i : nat) (t : ExtraTarget.t),
          Event.ExtraTargets evt !! i = Some t ->
          WebHookEventFilter.TargetTypes filter !! S i
            = Some (Target.Type_ (ExtraTarget.Target t)) /\
          WebHookEventFilter.TargetValues filter !! S i
            = Some (Target.Value (ExtraTarget.Target t))) /\
      WebHookEventFilter.KindTypes filter = [Kind.Type_ (Event.Kind evt)] /\
      WebHookEventFilter.KindNames filter = [Kind.Name (Event.Kind evt)].
Proof.
  intros env evtID w evt Hget.
  destruct (handleEvent_effects env evtID w evt Hget) as (rest & Heff & Hrest).
  exists (buildFilter evt), (Event.Error evt =? "")%string, rest.
  split; [exact Heff |]. split; [exact Hrest |].
  rewrite buildFilter_eq; cbn. unfold extra_types, extra_values.
  rewrite !length_map. repeat split; auto;
    first [ exact (lookup_map_Some
                     (fun t0 => Target.Type_ (ExtraTarget.Target t0)) _ _ _ H)
          | exact (lookup_map_Some
                     (fun t0 => Target.Value (ExtraTarget.Target t0)) _ _ _ H) ].
Qed.

(** The filter of [app_deploy], which has two extra targets. *)
Lemma handleEvent_filter_targets_witness :
  exists (filter : WebHookEventFilter.t) (successOnly : bool) (rest : list effect),
    effects (handleEvent (sample_env (Ok app_deploy) (Ok [hook_ci]) (answer_with 200))
                         "5d1f0e3a" [])
      = call_GetByID "5d1f0e3a" :: call_FindByEvent filter successOnly :: rest /\
    Forall (fun e => is_delivery e = true) rest /\
    length (WebHookEventFilter.TargetTypes filter) = 3%nat /\
    length (WebHookEventFilter.TargetValues filter) = 3%nat /\
    WebHookEventFilter.TargetTypes filter !! 0%nat = Some "app" /\
    WebHookEventFilter.TargetValues filter !! 0%nat = Some "myapp" /\
    (forall (i : nat) (t : ExtraTarget.t),
        Event.ExtraTargets app_deploy !! i = Some t ->
        WebHookEventFilter.TargetTypes filter !! S i
          = Some (Target.Type_ (ExtraTarget.Target t)) /\
        WebHookEventFilter.TargetValues filter !! S i
          = Some (Target.Value (ExtraTarget.Target t))) /\
    WebHookEventFilter.KindTypes filter = ["permission"] /\
    WebHookEventFilter.KindNames filter = ["app.deploy"].
Proof.
  apply (handleEvent_filter_targets
           (sample_env (Ok app_deploy) (Ok [hook_ci]) (answer_with 200))
           "5d1f0e3a" [] app_deploy).
  reflexivity.
Defined.

(** C6: [handleEvent] asks the store with [successOnly] true exactly when
    the [Error] field of the event is the empty string, and false
    otherwise. *)
Theorem handleEvent_successOnly :
  forall (env : Env) (evtID : string) (w : World) (evt : Event.t),
    event_GetByID env w evtID = Ok evt ->
    (exists filter : WebHookEventFilter.t,
        In (call_FindByEvent filter (Event.Error evt =? "")%string)
           (effects (handleEvent env evtID w))) /\
    (forall (filter : WebHookEventFilter.t) (successOnly : bool),
        In (call_FindByEvent filter successOnly) (effects (handleEvent env evtID w)) ->
        (successOnly = true <-> Event.Error evt = "") /\
        (successOnly = false <-> Event.Error evt <> "")).
Proof.
  intros env evtID w evt Hget.
  destruct (handleEvent_effects env evtID w evt Hget) as (rest & Heff & Hrest).
  rewrite Heff. split.
  - exists (buildFilter evt). right. left. reflexivity.
  - intros filter successOnly [H | [H | H]].
    + discriminate.
    + inversion H; subst.
      split; [apply String.eqb_eq | apply String.eqb_neq].
    + rewrite Forall_forall in Hrest. apply Hrest in H. discriminate.
Qed.

(** An event without error and one with an error. *)
Lemma handleEvent_successOnly_witness :
  (exists filter : WebHookEventFilter.t,
      In (call_FindByEvent filter true)
         (effects (handleEvent (sample_env (Ok app_deploy) (Ok []) (answer_with 200))
                               "5d1f0e3a" []))) /\
  (exists filter : WebHookEventFilter.t,
      In (call_FindByEvent filter false)
         (effects (handleEvent (sample_env (Ok app_deploy_failed) (Ok []) (answer_with 200))
                               "5d1f0e3b" []))).
Proof.
  split.
  - exact (proj1 (handleEvent_successOnly
                    (sample_env (Ok app_deploy) (Ok []) (answer_with 200))
                    "5d1f0e3a" [] app_deploy eq_refl)).
  - exact (proj1 (handleEvent_successOnly
                    (sample_env (Ok app_deploy_failed) (Ok []) (answer_with 200))
                    "5d1f0e3b" [] app_deploy_failed eq_refl)).
Defined.



(** C3: once the client has answered with a response, [doHook] returns nil
    exactly when the status code lies in [200, 400); for every other code
    it returns an error whose message holds the code in decimal and the
    body of the response.  So 200, 201 and 399 give nil and 199, 400 and
    500 give an error. *)
Theorem doHook_status_classification :
  forall (env : Env) (hook : WebHook.t) (evt : Event.t) (w : World)
         (insecure : bool) (req : Request.t) (rsp : Response.t),
    In (call_Do insecure req (Ok rsp)) (effects (doHook env hook evt w)) ->
    (outcome_of (doHook env hook evt w) = Ret None
     <-> 200 <= Response.StatusCode rsp < 400) /\
    (~ (200 <= Response.StatusCode rsp < 400) ->
     exists msg : string,
       outcome_of (doHook env hook evt w) = Ret (Some (Errorf msg)) /\
       msg = "invalid status code calling hook: "
             +:+ pretty (Response.StatusCode rsp) +:+ ": " +:+ Response.Body rsp /\
       string_contains (pretty (Response.StatusCode rsp)) msg /\
       string_contains (Response.Body rsp) msg).
Proof.
  intros env hook evt w insecure req rsp HIn.
  rewrite (doHook_answered env hook evt w insecure req rsp HIn).
  split.
  - split.
    + intros H.
      destruct (Z_le_dec 200 (Response.StatusCode rsp)) as [L |];
        [destruct (Z_lt_dec (Response.StatusCode rsp) 400) as [U |] |];
        try (split; assumption);
        rewrite checkStatus_bad in H by lia; discriminate.
    + intros H. rewrite (checkStatus_ok rsp H). reflexivity.
  - intros H. rewrite (checkStatus_bad rsp H).
    eexists. split; [reflexivity |]. split; [reflexivity |]. split.
    + exists "invalid status code calling hook: ", (": " +:+ Response.Body rsp).
      reflexivity.
    + exists ("invalid status code calling hook: "
              +:+ pretty (Response.StatusCode rsp) +:+ ": "), "".
      rewrite string_app_nil_r, !string_app_assoc. reflexivity.
Qed.

(** The six status codes at the two ends of the interval. *)
Lemma doHook_status_classification_witness :
  (outcome_of (doHook (sample_env (Ok app_deploy) (Ok [hook_ci]) (answer_with 200))
                      hook_ci app_deploy []) = Ret None /\
   outcome_of (doHook (sample_env (Ok app_deploy) (Ok [hook_ci]) (answer_with 201))
                      hook_ci app_deploy []) = Ret None /\
   outcome_of (doHook (sample_env (Ok app_deploy) (Ok [hook_ci]) (answer_with 399))
                      hook_ci app_deploy []) = Ret None) /\
  (exists msg : string,
      outcome_of (doHook (sample_env (Ok app_deploy) (Ok [hook_ci]) (answer_with 199))
                         hook_ci app_deploy []) = Ret (Some (Errorf msg)) /\
      msg = "invalid status code calling hook: 199: upstream says no" /\
      string_contains "199" msg /\ string_contains "upstream says no" msg) /\
  (exists msg : string,
      outcome_of (doHook (sample_env (Ok app_deploy) (Ok [hook_ci]) (answer_with 400))
                         hook_ci app_deploy []) = Ret (Some (Errorf msg)) /\
      msg = "invalid status code calling hook: 400: upstream says no" /\
      string_contains "400" msg /\ string_contains "upstream says no" msg) /\
  (exists msg : string,
      outcome_of (doHook (sample_env (Ok app_deploy) (Ok [hook_ci]) (answer_with 500))
                         hook_ci app_deploy []) = Ret (Some (Errorf msg)) /\
      msg = "invalid status code calling hook: 500: upstream says no" /\
      string_contains "500" msg /\ string_contains "upstream says no" msg).
Proof.
  pose (at_status := fun status : Z =>
    doHook_status_classification
      (sample_env (Ok app_deploy) (Ok [hook_ci]) (answer_with status))
      hook_ci app_deploy [] false request_ci
      {| Response.StatusCode := status; Response.Body := "upstream says no" |}).
  split; [split; [| split] | split; [| split]].
  - apply (proj2 (proj1 (at_status 200 ltac:(vm_compute; left; reflexivity)))).
    cbn. lia.
  - apply (proj2 (proj1 (at_status 201 ltac:(vm_compute; left; reflexivity)))).
    cbn. lia.
  - apply (proj2 (proj1 (at_status 399 ltac:(vm_compute; left; reflexivity)))).
    cbn. lia.
  - apply (proj2 (at_status 199 ltac:(vm_compute; left; reflexivity))). cbn. lia.
  - apply (proj2 (at_status 400 ltac:(vm_compute; left; reflexivity))). cbn. lia.
  - apply (proj2 (at_status 500 ltac:(vm_compute; left; reflexivity))). cbn. lia.
Defined.

(** C5, as the code has it: every call of [doHook] increments the counter
    of calls exactly once; it increments the counter of errors, once,
    exactly when it returns an error; and it records a latency exactly when
    it reaches the client, which it does at most once and only after the
    body and the request were built, whatever the client then answers. *)
Theorem doHook_metrics :
  forall (env : Env) (hook : WebHook.t) (evt : Event.t) (w : World),
    count is_Total (effects (doHook env hook evt w)) = 1%nat /\
    (count is_Error (effects (doHook env hook evt w)) = 1%nat
     <-> exists e : error, outcome_of (doHook env hook evt w) = Ret (Some e)) /\
    (count is_Error (effects (doHook env hook evt w)) = 0%nat
     <-> ~ exists e : error, outcome_of (doHook env hook evt w) = Ret (Some e)) /\
    count is_Latency (effects (doHook env hook evt w))
      = count is_Do (effects (doHook env hook evt w)) /\
    (count is_Do (effects (doHook env hook evt w)) <= 1)%nat /\
    (count is_Do (effects (doHook env hook evt w)) = 1%nat
     <-> exists (hook2 : WebHook.t) (body : option string) (req : Request.t),
           webhookBody env (normalizeMethod env hook) evt = Ret (hook2, Ok body) /\
           http_NewRequest env (WebHook.Method hook2) (WebHook.URL hook2) body
             = Ok req /\
           WebHook.Headers hook2 <> None).
Proof.
  intros env hook evt w.
  split; [apply doHook_count_Total |].
  split; [| split].
  - rewrite doHook_count_Error.
    destruct (outcome_of (doHook env hook evt w)) as [[e |] | p]; split;
      try discriminate; eauto; intros [e' H]; discriminate.
  - rewrite doHook_count_Error.
    destruct (outcome_of (doHook env hook evt w)) as [[e |] | p]; split;
      try discriminate; auto.
    + intros H. exfalso. apply H. eauto.
    + intros _ [e' H]. discriminate.
    + intros _ [e' H]. discriminate.
  - split; [apply doHook_count_Latency |].
    split; [apply doHook_count_Latency |].
    run_cases env hook evt w; unfold effects; cbn [fst app].
    + split; [discriminate |].
      intros (h2 & b & r0 & Hb' & _). rewrite Hb in Hb'. discriminate.
    + split; [discriminate |].
      intros (h2 & b & r0 & Hb' & _). rewrite Hb in Hb'. discriminate.
    + split; [discriminate |].
      intros (h2 & b & r0 & Hb' & Hq' & _). rewrite Hb in Hb'.
      inversion Hb'; subst. rewrite Hq in Hq'. discriminate.
    + split; [discriminate |].
      intros (h2 & b & r0 & Hb' & _ & Hn). rewrite Hb in Hb'.
      inversion Hb'; subst. contradiction.
    + split; [| reflexivity].
      intros _. exists hook2, body, req. rewrite Hm. repeat split; auto.
    + split; [| destruct (checkStatus rsp); reflexivity].
      intros _. exists hook2, body, req. rewrite Hm. repeat split; auto.
Qed.

(** A call answered with 503: one call, one error, one latency. *)
Lemma doHook_metrics_witness :
  count is_Total
    (effects (doHook (sample_env (Ok app_deploy) (Ok [hook_ci]) (answer_with 503))
                     hook_ci app_deploy [])) = 1%nat /\
  count is_Error
    (effects (doHook (sample_env (Ok app_deploy) (Ok [hook_ci]) (answer_with 503))
                     hook_ci app_deploy [])) = 1%nat /\
  count is_Latency
    (effects (doHook (sample_env (Ok app_deploy) (Ok [hook_ci]) (answer_with 503))
                     hook_ci app_deploy [])) = 1%nat.
Proof.
  pose proof (doHook_metrics
                (sample_env (Ok app_deploy) (Ok [hook_ci]) (answer_with 503))
                hook_ci app_deploy []) as (T & E & _ & L & _ & D).
  split; [exact T |]. split.
  - apply (proj2 E). eexists. vm_compute. reflexivity.
  - rewrite L. apply (proj2 D).
    eexists _, _, _. split; [vm_compute; reflexivity |].
    split; [vm_compute; reflexivity |]. discriminate.
Defined.

(** C5, against the claim as it is written: a hook whose method is not a
    token makes [http.NewRequest] fail, so the attempt fails before the
    HTTP call; it is counted as a call and as an error, and no latency is
    recorded. *)
Lemma doHook_no_latency_before_the_call :
  outcome_of (doHook (sample_env (Ok app_deploy) (Ok [hook_bad_method]) (answer_with 200))
                     hook_bad_method app_deploy [])
    = Ret (Some (Foreign "net/http: invalid method")) /\
  effects (doHook (sample_env (Ok app_deploy) (Ok [hook_bad_method]) (answer_with 200))
                  hook_bad_method app_deploy [])
    = [webhooksTotal_Inc; webhooksError_Inc] /\
  count is_Latency
    (effects (doHook (sample_env (Ok app_deploy) (Ok [hook_bad_method]) (answer_with 200))
                     hook_bad_method app_deploy [])) = 0%nat.
Proof. vm_compute. repeat split. Qed.

(** C7: [doHook] puts the method in upper case and takes POST for the
    empty method before it uses it: that is the method of every request it
    sends, two methods with the same upper case form give the same run, the
    empty method runs as POST does and [post] runs as [POST] does. *)
Theorem doHook_method_normalized :
  forall (env : Env) (hook : WebHook.t) (evt : Event.t) (w : World),
    (forall (insecure : bool) (req : Request.t) (answer : result Response.t),
        In (call_Do insecure req answer) (effects (doHook env hook evt w)) ->
        Request.Method req =
        if (strings_ToUpper env (WebHook.Method hook) =? "")%string then "POST"
        else strings_ToUpper env (WebHook.Method hook)) /\
    (forall m1 m2 : string,
        strings_ToUpper env m1 = strings_ToUpper env m2 ->
        doHook env (WebHook.with_Method m1 hook) evt w
        = doHook env (WebHook.with_Method m2 hook) evt w) /\
    doHook env (WebHook.with_Method "" hook) evt w
      = doHook env (WebHook.with_Method "POST" hook) evt w /\
    doHook env (WebHook.with_Method "post" hook) evt w
      = doHook env (WebHook.with_Method "POST" hook) evt w.
Proof.
  intros env hook evt w. split; [| split; [| split]].
  - intros insecure rq answer HIn.
    apply doHook_request in HIn.
    destruct HIn as (h2 & b & m0 & _ & _ & _ & _ & _ & _ & ->).
    cbn. apply normalizeMethod_Method.
  - intros m1 m2 H. apply doHook_normalized.
    unfold normalizeMethod; cbn. rewrite H. reflexivity.
  - apply doHook_normalized. reflexivity.
  - apply doHook_normalized. reflexivity.
Qed.

(** [post] is sent as POST, and two spellings of patch run alike. *)
Lemma doHook_method_normalized_witness :
  Request.Method request_ci = "POST" /\
  doHook (sample_env (Ok app_deploy) (Ok [hook_ci]) (answer_with 200))
         (WebHook.with_Method "pAtCh" hook_ci) app_deploy []
  = doHook (sample_env (Ok app_deploy) (Ok [hook_ci]) (answer_with 200))
           (WebHook.with_Method "Patch" hook_ci) app_deploy [].
Proof.
  pose proof (doHook_method_normalized
                (sample_env (Ok app_deploy) (Ok [hook_ci]) (answer_with 200))
                hook_ci app_deploy []) as (M & C & _ & _).
  split.
  - apply (M false request_ci (answer_with 200)). vm_compute. left. reflexivity.
  - apply (C "pAtCh" "Patch"). reflexivity.
Defined.

(** C2: [webhookBody] returns the literal body whenever the hook has one,
    whatever the method; with no literal body and a method other than POST,
    PUT and PATCH it returns no body; with no literal body and one of these
    methods it sets Content-Type to application/json in the header map and
    returns the serialization of the event.  In [doHook], where the method
    has been normalized first, every request sent has its body chosen that
    way, and in the serializing case it carries
    Content-Type: application/json. *)
Theorem doHook_body_selection :
  forall (env : Env) (hook : WebHook.t) (evt : Event.t) (w : World),
    (WebHook.Body hook <> "" ->
     webhookBody env hook evt = Ret (hook, Ok (Some (WebHook.Body hook)))) /\
    (WebHook.Body hook = "" ->
     WebHook.Method hook <> "POST" /\ WebHook.Method hook <> "PUT" /\
     WebHook.Method hook <> "PATCH" ->
     webhookBody env hook evt = Ret (hook, Ok None)) /\
    (WebHook.Body hook = "" ->
     WebHook.Method hook = "POST" \/ WebHook.Method hook = "PUT" \/
     WebHook.Method hook = "PATCH" ->
     forall (m : gmap string (list string)) (data : string),
       WebHook.Headers hook = Some m ->
       json_Marshal env evt = Ok data ->
       exists hook2 : WebHook.t,
         webhookBody env hook evt = Ret (hook2, Ok (Some data)) /\
         Header_Get (WebHook.Headers hook2) "Content-Type" = "application/json") /\
    (forall (insecure : bool) (req : Request.t) (answer : result Response.t),
        In (call_Do insecure req answer) (effects (doHook env hook evt w)) ->
        let method := WebHook.Method (normalizeMethod env hook) in
        (WebHook.Body hook <> "" -> Request.Body req = Some (WebHook.Body hook)) /\
        (WebHook.Body hook = "" ->
         method = "POST" \/ method = "PUT" \/ method = "PATCH" ->
         (exists data : string,
             json_Marshal env evt = Ok data /\ Request.Body req = Some data) /\
         Header_Get (Request.Header req) "Content-Type" = "application/json") /\
        (WebHook.Body hook = "" ->
         method <> "POST" /\ method <> "PUT" /\ method <> "PATCH" ->
         Request.Body req = None)).
Proof.
  intros env hook evt w. split; [| split; [| split]].
  - intros Hne.
    destruct (webhookBody_cases env hook evt)
      as [[_ E] | [[He _] | [[Hs _] | [Hs _]]]]; auto;
      try contradiction; apply sends_event_true in Hs; tauto.
  - intros He Hm.
    destruct (webhookBody_cases env hook evt)
      as [[Hne _] | [[_ [_ E]] | [[Hs _] | [Hs _]]]]; auto;
      try contradiction; apply sends_event_true in Hs; tauto.
  - intros He Hmeth m data Hm Hj.
    destruct (webhookBody_cases env hook evt)
      as [[Hne _] | [[_ [Hs _]] | [[_ [Hn _]] | [_ [m' [Hm' E]]]]]].
    + contradiction.
    + apply sends_event_false in Hs. tauto.
    + rewrite Hm in Hn. discriminate.
    + rewrite E, Hj. eexists. split; [reflexivity |].
      cbn. rewrite lookup_insert_eq. reflexivity.
  - intros insecure rq answer HIn method.
    destruct (doHook_request_parts env hook evt w insecure rq answer HIn)
      as (m & Hm & [(Hne & Hb & Hh) | [(He & Hs & Hb & Hh) | (Hs & Hd & Hh)]]).
    + repeat split; auto; intros; contradiction.
    + apply sends_event_false in Hs.
      destruct (normalizeMethod_keeps env hook) as (_ & _ & _ & Hbd & _).
      rewrite Hbd in Hs. subst method.
      repeat split; auto; intros; tauto.
    + apply sends_event_true in Hs.
      destruct (normalizeMethod_keeps env hook) as (_ & _ & _ & Hbd & _).
      rewrite Hbd in Hs. destruct Hs as [He Hmeth]. subst method.
      repeat split; auto; try (intros; tauto).
      rewrite Hh. unfold Header_Get.
      rewrite with_UserAgent_Content_Type, lookup_insert_eq. reflexivity.
Qed.

(** A literal body, no body, and the serialized event. *)
Lemma doHook_body_selection_witness :
  webhookBody (sample_env (Ok app_deploy) (Ok []) (answer_with 200)) hook_chat app_deploy
    = Ret (hook_chat, Ok (Some "deployed")) /\
  webhookBody (sample_env (Ok app_deploy) (Ok []) (answer_with 200)) hook_ping app_deploy
    = Ret (hook_ping, Ok None) /\
  (exists hook2 : WebHook.t,
      webhookBody (sample_env (Ok app_deploy) (Ok []) (answer_with 200))
                  (WebHook.with_Method "PATCH" hook_ci) app_deploy
        = Ret (hook2, Ok (Some "{UniqueID:5d1f0e3a}")) /\
      Header_Get (WebHook.Headers hook2) "Content-Type" = "application/json") /\
  Request.Body request_chat = Some "deployed" /\
  ((exists data : string,
       Ok "{UniqueID:5d1f0e3a}" = Ok data /\ Request.Body request_ci = Some data) /\
   Header_Get (Request.Header request_ci) "Content-Type" = "application/json") /\
  Request.Body request_ping = None.
Proof.
  pose (env := sample_env (Ok app_deploy) (Ok []) (answer_with 200)).
  split; [| split; [| split; [| split; [| split]]]].
  - apply (proj1 (doHook_body_selection env hook_chat app_deploy [])).
    discriminate.
  - apply (proj1 (proj2 (doHook_body_selection env hook_ping app_deploy []))).
    + reflexivity.
    + repeat split; discriminate.
  - apply (proj1 (proj2 (proj2 (doHook_body_selection env
                                  (WebHook.with_Method "PATCH" hook_ci) app_deploy [])))
             eq_refl (or_intror (or_intror eq_refl))
             {[ "X-Token" := ["s3cr3t"] ]} "{UniqueID:5d1f0e3a}" eq_refl eq_refl).
  - apply (proj2 (proj2 (proj2 (doHook_body_selection env hook_chat app_deploy [])))
             true request_chat (answer_with 200)).
    + vm_compute. left. reflexivity.
    + discriminate.
  - apply (proj2 (proj2 (proj2 (doHook_body_selection env hook_ci app_deploy [])))
             false request_ci (answer_with 200)).
    + vm_compute. left. reflexivity.
    + reflexivity.
    + left. reflexivity.
  - apply (proj2 (proj2 (proj2 (doHook_body_selection env hook_ping app_deploy [])))
             false request_ping (answer_with 200)).
    + vm_compute. left. reflexivity.
    + reflexivity.
    + repeat split; discriminate.
Defined.

(** C10: the header map of a request sent for a hook is the map of the
    hook, with Content-Type set to application/json when, and only when,
    the event is serialized (no literal body and POST, PUT or PATCH), and
    with the default User-Agent added when, and only when, the map so far
    yields no User-Agent.  For a hook with a literal body nothing but that
    User-Agent is added, and Content-Type stays as the hook has it. *)
Theorem doHook_request_headers :
  forall (env : Env) (hook : WebHook.t) (evt : Event.t) (w : World)
         (insecure : bool) (req : Request.t) (answer : result Response.t),
    In (call_Do insecure req answer) (effects (doHook env hook evt w)) ->
    exists m : gmap string (list string),
      WebHook.Headers hook = Some m /\
      (WebHook.Body hook <> "" ->
       (Header_Get (Some m) "User-Agent" <> "" -> Request.Header req = Some m) /\
       (Header_Get (Some m) "User-Agent" = "" ->
        Request.Header req = Some (<["User-Agent" := [defaultUserAgent]]> m)) /\
       (forall h, Request.Header req = Some h ->
                  h !! "Content-Type" = m !! "Content-Type")) /\
      (sends_event (normalizeMethod env hook) = false ->
       Request.Header req = Some (with_UserAgent m) /\
       (forall h, Request.Header req = Some h ->
                  h !! "Content-Type" = m !! "Content-Type")) /\
      (sends_event (normalizeMethod env hook) = true ->
       Request.Header req =
       Some (with_UserAgent (<["Content-Type" := ["application/json"]]> m)) /\
       Header_Get (Request.Header req) "Content-Type" = "application/json") /\
      (sends_event (normalizeMethod env hook) = true <->
       WebHook.Body hook = "" /\
       (WebHook.Method (normalizeMethod env hook) = "POST" \/
        WebHook.Method (normalizeMethod env hook) = "PUT" \/
        WebHook.Method (normalizeMethod env hook) = "PATCH")).
Proof.
  intros env hook evt w insecure rq answer HIn.
  destruct (normalizeMethod_keeps env hook) as (_ & _ & _ & Hbd & _).
  assert (Hse : sends_event (normalizeMethod env hook) = true <->
                WebHook.Body hook = "" /\
                (WebHook.Method (normalizeMethod env hook) = "POST" \/
                 WebHook.Method (normalizeMethod env hook) = "PUT" \/
                 WebHook.Method (normalizeMethod env hook) = "PATCH")).
  { rewrite sends_event_true, Hbd. reflexivity. }
  assert (Hua : forall m : gmap string (list string),
             (Header_Get (Some m) "User-Agent" <> "" -> with_UserAgent m = m) /\
             (Header_Get (Some m) "User-Agent" = "" ->
              with_UserAgent m = <["User-Agent" := [defaultUserAgent]]> m)).
  { intros m. unfold with_UserAgent.
    destruct (Header_Get (Some m) "User-Agent" =? "")%string eqn:E.
    - apply String.eqb_eq in E. split; [contradiction | reflexivity].
    - apply String.eqb_neq in E. split; [reflexivity | contradiction]. }
  assert (Hct : forall (m : gmap string (list string)) h,
             Some (with_UserAgent m) = Some h ->
             h !! "Content-Type" = m !! "Content-Type").
  { intros m h Hq. inversion Hq; subst. apply with_UserAgent_Content_Type. }
  destruct (doHook_request_parts env hook evt w insecure rq answer HIn)
    as (m & Hm & [(Hne & Hb & Hh) | [(He & Hs & Hb & Hh) | (Hs & Hd & Hh)]]);
    exists m; (split; [exact Hm |]);
    (split; [| split; [| split; [| exact Hse]]]).
  - intros _. rewrite Hh. split; [| split].
    + intros U. f_equal. apply (proj1 (Hua m) U).
    + intros U. f_equal. apply (proj2 (Hua m) U).
    + apply Hct.
  - intros _. rewrite Hh. split; [reflexivity | apply Hct].
  - intros Hs. apply Hse in Hs. destruct Hs as [He _]. contradiction.
  - intros Hne. contradiction.
  - intros _. rewrite Hh. split; [reflexivity | apply Hct].
  - intros Hs'. rewrite Hs in Hs'. discriminate.
  - intros Hne. apply Hse in Hs. destruct Hs as [He _]. contradiction.
  - intros Hs'. rewrite Hs in Hs'. discriminate.
  - intros _. rewrite Hh. split; [reflexivity |].
    unfold Header_Get.
    rewrite with_UserAgent_Content_Type, lookup_insert_eq. reflexivity.
Qed.

(** A hook with a literal body and a User-Agent of its own: its header
    map is sent as it is. *)
Lemma doHook_request_headers_witness :
  exists m : gmap string (list string),
    WebHook.Headers hook_chat = Some m /\
    Request.Header request_chat = Some m.
Proof.
  destruct (doHook_request_headers
              (sample_env (Ok app_deploy) (Ok []) (answer_with 200))
              hook_chat app_deploy [] true request_chat (answer_with 200))
    as (m & Hm & Hlit & _).
  - vm_compute. left. reflexivity.
  - exists m. split; [exact Hm |].
    apply (proj1 (Hlit ltac:(discriminate))).
    inversion Hm. vm_compute. discriminate.
Defined.

(** C4: [Create] returns a validation error, and calls nothing, whenever
    the name is empty, the name breaks the name rule, the URL is empty or
    the URL does not parse; the store's [Insert] is called only when all
    four checks pass, and then it is called, once, with the hook. *)
Theorem Create_validation :
  forall (env : Env) (hook : WebHook.t) (world : World),
    (WebHook.Name hook = "" \/
     validation_ValidateName env (WebHook.Name hook) = false \/
     WebHook.URL hook = "" \/
     url_Parse env (WebHook.URL hook) <> None ->
     (exists msg : string,
         outcome_of (Create env hook world) = Ret (Some (ValidationError msg))) /\
     effects (Create env hook world) = []) /\
    (forall e : effect,
        In e (effects (Create env hook world)) ->
        e = call_Insert hook /\
        WebHook.Name hook <> "" /\
        validation_ValidateName env (WebHook.Name hook) = true /\
        WebHook.URL hook <> "" /\
        url_Parse env (WebHook.URL hook) = None) /\
    (WebHook.Name hook <> "" ->
     validation_ValidateName env (WebHook.Name hook) = true ->
     WebHook.URL hook <> "" ->
     url_Parse env (WebHook.URL hook) = None ->
     Create env hook world
     = ([call_Insert hook], Ret (storage_Insert env world hook))).
Proof.
  intros env hook world.
  assert (rejected : forall msg : string,
             Create env hook world = ([], Ret (Some (ValidationError msg))) ->
             (WebHook.Name hook = "" \/
              validation_ValidateName env (WebHook.Name hook) = false \/
              WebHook.URL hook = "" \/
              url_Parse env (WebHook.URL hook) <> None) ->
             (WebHook.Name hook = "" \/
              validation_ValidateName env (WebHook.Name hook) = false \/
              WebHook.URL hook = "" \/
              url_Parse env (WebHook.URL hook) <> None ->
              (exists msg : string,
                  outcome_of (Create env hook world)
                  = Ret (Some (ValidationError msg))) /\
              effects (Create env hook world) = []) /\
             (forall e : effect,
                 In e (effects (Create env hook world)) ->
                 e = call_Insert hook /\
                 WebHook.Name hook <> "" /\
                 validation_ValidateName env (WebHook.Name hook) = true /\
                 WebHook.URL hook <> "" /\
                 url_Parse env (WebHook.URL hook) = None) /\
             (WebHook.Name hook <> "" ->
              validation_ValidateName env (WebHook.Name hook) = true ->
              WebHook.URL hook <> "" ->
              url_Parse env (WebHook.URL hook) = None ->
              Create env hook world
              = ([call_Insert hook], Ret (storage_Insert env world hook)))).
  { intros msg E Hbad. rewrite E. split; [| split].
    - intros _. split; [exists msg; reflexivity | reflexivity].
    - intros e [].
    - intros N V U P. destruct Hbad as [H | [H | [H | H]]];
        [contradiction | rewrite V in H; discriminate | contradiction | contradiction]. }
  unfold Create, validation_EnsureValidateName, validateURL, ret in *.
  destruct (WebHook.Name hook =? "")%string eqn:En.
  { apply String.eqb_eq in En. eapply rejected; [reflexivity | auto]. }
  apply String.eqb_neq in En.
  destruct (validation_ValidateName env (WebHook.Name hook)) eqn:Ev.
  2: { eapply rejected; [reflexivity | auto]. }
  destruct (WebHook.URL hook =? "")%string eqn:Eu.
  { apply String.eqb_eq in Eu. eapply rejected; [reflexivity | auto]. }
  apply String.eqb_neq in Eu.
  destruct (url_Parse env (WebHook.URL hook)) as [err |] eqn:Ep.
  { eapply rejected; [reflexivity |]. right; right; right. discriminate. }
  unfold effects, outcome_of. cbn. split; [| split].
  - intros [H | [H | [H | H]]];
      [contradiction | discriminate | contradiction | contradiction].
  - intros e [<- | []]. auto.
  - reflexivity.
Qed.

(** Four hooks that [Create] refuses and one it inserts. *)
Lemma Create_validation_witness :
  (let env := sample_env (Ok app_deploy) (Ok []) (answer_with 200) in
   (forall hook : WebHook.t,
       In hook [hook_no_name; hook_bad_name; hook_no_url; hook_bad_url] ->
       (exists msg : string,
           outcome_of (Create env hook []) = Ret (Some (ValidationError msg))) /\
       effects (Create env hook []) = []) /\
   Create env hook_ci [] = ([call_Insert hook_ci], Ret None)).
Proof.
  intros env. split.
  - intros hook [<- | [<- | [<- | [<- | []]]]].
    + apply (proj1 (Create_validation env hook_no_name [])).
      left. reflexivity.
    + apply (proj1 (Create_validation env hook_bad_name [])).
      right; left. reflexivity.
    + apply (proj1 (Create_validation env hook_no_url [])).
      right; right; left. reflexivity.
    + apply (proj1 (Create_validation env hook_bad_url [])).
      right; right; right. discriminate.
  - apply (proj2 (proj2 (Create_validation env hook_ci []))).
    + discriminate.
    + reflexivity.
    + discriminate.
    + reflexivity.
Defined.

(** C9: [Shutdown] closes the quit channel; it then returns nil by
    receiving from the done channel, which it can do only once the worker
    has closed it, and it returns the error of the context by receiving
    from the context's channel, which it can do only once the context has
    expired.  When the context has expired and the worker has not signalled
    yet, the error of the context is the only return; this step leaves the
    worker and its channels as they are.  There is a schedule in which
    [Shutdown] has returned that error while the worker is still handling
    an event, after which the worker goes on, finishes the event, sees the
    quit channel closed and returns.  In another schedule the worker sees
    the quit channel closed first, and [Shutdown] returns nil. *)
Theorem Shutdown_outcomes :
  forall (env : Env) (ctx_Err : error) (s : service),
    (alive s = true -> caller s = Shutdown_entry -> quitCh s = Open ->
     step env ctx_Err (in_Shutdown S_close) s
     = Some (set_caller Shutdown_select (set_quitCh Closed s))) /\
    (forall s' : service,
        step env ctx_Err (in_Shutdown S_done) s = Some s' <->
        alive s = true /\ caller s = Shutdown_select /\ doneCh s = Closed /\
        s' = set_caller (Shutdown_returned None) s) /\
    (forall s' : service,
        step env ctx_Err (in_Shutdown S_ctx) s = Some s' <->
        alive s = true /\ caller s = Shutdown_select /\ ctx_Done s = true /\
        s' = set_caller (Shutdown_returned (Some ctx_Err)) s) /\
    (alive s = true -> caller s = Shutdown_select ->
     ctx_Done s = true -> doneCh s = Open ->
     step env ctx_Err (in_Shutdown S_done) s = None /\
     exists s' : service,
       step env ctx_Err (in_Shutdown S_ctx) s = Some s' /\
       caller s' = Shutdown_returned (Some ctx_Err) /\
       worker s' = worker s /\ evtCh s' = evtCh s /\
       quitCh s' = quitCh s /\ doneCh s' = Open /\ history s' = history s) /\
    (forall evtID : string,
        exists s1 : service,
          steps env ctx_Err
                [in_Notify evtID N_send; in_run R_recv; in_Shutdown S_close;
                 ctx_expires; in_Shutdown S_ctx] new_service = Some s1 /\
          caller s1 = Shutdown_returned (Some ctx_Err) /\
          worker s1 = run_handling evtID /\
          quitCh s1 = Closed /\ doneCh s1 = Open /\
          (returns (outcome_of (handleEvent env evtID (history s1))) = true ->
           exists s3 : service,
             steps env ctx_Err [in_run R_handle; in_run R_quit] s1 = Some s3 /\
             worker s3 = run_returned /\ doneCh s3 = Closed /\
             caller s3 = Shutdown_returned (Some ctx_Err))) /\
    (exists s2 : service,
        steps env ctx_Err [in_Shutdown S_close; in_run R_quit; in_Shutdown S_done] new_service
        = Some s2 /\
        caller s2 = Shutdown_returned None /\ worker s2 = run_returned /\
        quitCh s2 = Closed /\ doneCh s2 = Closed).
Proof.
  intros env ctx_Err s. split; [| split; [| split; [| split; [| split]]]].
  - intros Ha Hc Hq. unfold step, Shutdown. rewrite Ha, Hc, Hq. reflexivity.
  - intros s'. unfold step, Shutdown.
    destruct (alive s); cbn [negb];
      [| split; [discriminate | intros (H & _); discriminate]].
    destruct (caller s), (doneCh s); split;
      try discriminate;
      try (intros (_ & H1 & H2 & _); discriminate).
    + intros H; inversion H; auto.
    + intros (_ & _ & _ & ->). reflexivity.
  - intros s'. unfold step, Shutdown.
    destruct (alive s); cbn [negb];
      [| split; [discriminate | intros (H & _); discriminate]].
    destruct (caller s), (ctx_Done s); split;
      try discriminate;
      try (intros (_ & H1 & H2 & _); discriminate).
    + intros H; inversion H; auto.
    + intros (_ & _ & _ & ->). reflexivity.
  - intros Ha Hc Hx Hd. unfold step, Shutdown. rewrite Ha, Hc, Hx, Hd. cbn.
    split; [reflexivity |]. eexists. split; [reflexivity |]. cbn. auto 10.
  - intros evtID. eexists. split; [reflexivity |].
    cbn -[handleEvent]. repeat split; auto.
    unfold outcome_of.
    destruct (handleEvent env evtID
                [webhooksQueue_Set 1; webhooksQueue_Set 0]) as [t [[e |] | p]];
      cbn; intros Hr; try discriminate; eauto.
  - eexists. split; [reflexivity |]. cbn. auto.
Qed.

(** A deadline that passes while the worker handles an event. *)
Lemma Shutdown_outcomes_witness :
  (let env := sample_env (Ok app_deploy) (Ok [hook_ci]) (answer_with 200) in
   let deadline := Foreign "context deadline exceeded" in
   step env deadline (in_Shutdown S_close) new_service
   = Some (set_caller Shutdown_select (set_quitCh Closed new_service)) /\
   (exists s1 : service,
       steps env deadline
             [in_Notify "5d1f0e3a" N_send; in_run R_recv; in_Shutdown S_close;
              ctx_expires; in_Shutdown S_ctx] new_service = Some s1 /\
       caller s1 = Shutdown_returned (Some deadline) /\
       worker s1 = run_handling "5d1f0e3a" /\
       exists s3 : service,
         steps env deadline [in_run R_handle; in_run R_quit] s1 = Some s3 /\
         worker s3 = run_returned /\ doneCh s3 = Closed /\
         caller s3 = Shutdown_returned (Some deadline))).
Proof.
  intros env deadline. split.
  - apply (proj1 (Shutdown_outcomes env deadline new_service)); reflexivity.
  - destruct (proj1 (proj2 (proj2 (proj2 (proj2
                 (Shutdown_outcomes env deadline new_service)))))
                "5d1f0e3a") as (s1 & R & C & W & _ & _ & F).
    exists s1. split; [exact R |]. split; [exact C |]. split; [exact W |].
    apply F. inversion R. vm_compute. reflexivity.
Defined.

(** * Further properties of the code *)

Lemma count_pos_In (p : effect -> bool) (t : list effect) :
  (0 < count p t)%nat -> exists e, In e t /\ p e = true.
Proof.
  induction t as [|e t IH]; cbn; [lia |].
  destruct (p e) eqn:E.
  - intros _. exists e. auto.
  - intros H. destruct (IH H) as (e' & Hi & Hp). exists e'. auto.
Qed.

Lemma In_count_pos (p : effect -> bool) (t : list effect) (e : effect) :
  In e t -> p e = true -> (0 < count p t)%nat.
Proof.
  induction t as [|e' t IH]; cbn; [intros [] |].
  intros [-> | H] Hp.
  - rewrite Hp. lia.
  - specialize (IH H Hp). lia.
Qed.

(** X1: [Update] checks the URL and nothing else.  An empty URL or one
    that does not parse gives a validation error and no call of the store;
    any other hook, whatever its name, goes to the store's [Update] once and
    the answer of the store is returned.  So every hook [Create] inserts is
    one [Update] passes on. *)
Theorem Update_checks_the_URL_only :
  forall (env : Env) (hook : WebHook.t) (world : World),
    (WebHook.URL hook = "" \/ url_Parse env (WebHook.URL hook) <> None ->
     (exists msg : string,
         outcome_of (Update env hook world) = Ret (Some (ValidationError msg))) /\
     effects (Update env hook world) = []) /\
    (WebHook.URL hook <> "" -> url_Parse env (WebHook.URL hook) = None ->
     Update env hook world
     = ([call_Update hook], Ret (storage_Update env world hook))) /\
    (forall world' : World,
        In (call_Insert hook) (effects (Create env hook world')) ->
        effects (Update env hook world) = [call_Update hook]).
Proof.
  intros env hook world.
  assert (ok : WebHook.URL hook <> "" -> url_Parse env (WebHook.URL hook) = None ->
               Update env hook world
               = ([call_Update hook], Ret (storage_Update env world hook))).
  { intros Hu Hp. unfold Update, validateURL.
    apply String.eqb_neq in Hu. rewrite Hu, Hp. reflexivity. }
  split; [| split].
  - intros Hbad. unfold Update, validateURL, ret, effects, outcome_of.
    destruct (WebHook.URL hook =? "")%string eqn:Eu; cbn; [eauto |].
    destruct (url_Parse env (WebHook.URL hook)) as [err |] eqn:Ep; cbn; [eauto |].
    apply String.eqb_neq in Eu. destruct Hbad as [H | H]; contradiction.
  - exact ok.
  - intros world' HIn. revert HIn.
    unfold Create, validation_EnsureValidateName, validateURL, ret, effects.
    destruct (WebHook.Name hook =? "")%string; cbn; [intros [] |].
    destruct (validation_ValidateName env (WebHook.Name hook)); cbn; [| intros []].
    destruct (WebHook.URL hook =? "")%string eqn:Eu; cbn; [intros [] |].
    destruct (url_Parse env (WebHook.URL hook)) eqn:Ep; cbn; [intros [] |].
    intros _. apply String.eqb_neq in Eu. rewrite (ok Eu eq_refl). reflexivity.
Qed.

(** A hook with an empty name and a good URL is passed on; one whose URL
    has no scheme is refused. *)
Lemma Update_checks_the_URL_only_witness :
  (let env := sample_env (Ok app_deploy) (Ok []) (answer_with 200) in
   Update env hook_renamed [] = ([call_Update hook_renamed], Ret None) /\
   ((exists msg : string,
        outcome_of (Update env hook_no_scheme []) = Ret (Some (ValidationError msg))) /\
    effects (Update env hook_no_scheme []) = []) /\
   effects (Update env hook_ci []) = [call_Update hook_ci]).
Proof.
  intros env. split; [| split].
  - apply (proj1 (proj2 (Update_checks_the_URL_only env hook_renamed []))).
    + discriminate.
    + reflexivity.
  - apply (proj1 (Update_checks_the_URL_only env hook_no_scheme [])).
    right. discriminate.
  - apply (proj2 (proj2 (Update_checks_the_URL_only env hook_ci [])) []).
    left. reflexivity.
Defined.

(** X2: [doHook] reaches the HTTP client exactly when the header map of
    the hook is not nil, the normalized method is a token, the URL parses
    and, where the event is to be serialized, [json.Marshal] succeeds; it
    then sends one request, and in every other case none. *)
Theorem doHook_reaches_the_client :
  forall (env : Env) (hook : WebHook.t) (evt : Event.t) (w : World),
    (count is_Do (effects (doHook env hook evt w)) = 1%nat <->
     WebHook.Headers hook <> None /\
     validMethod (WebHook.Method (normalizeMethod env hook)) = true /\
     url_Parse env (WebHook.URL hook) = None /\
     (sends_event (normalizeMethod env hook) = true ->
      exists data : string, json_Marshal env evt = Ok data)) /\
    (count is_Do (effects (doHook env hook evt w)) = 0%nat \/
     count is_Do (effects (doHook env hook evt w)) = 1%nat).
Proof.
  intros env hook evt w.
  destruct (doHook_count_Latency env hook evt w) as [_ Hle].
  split; [| lia]. split.
  - intros H1.
    destruct (count_pos_In is_Do (effects (doHook env hook evt w))) as (e & HIn & Hdo);
      [lia |].
    destruct e; try discriminate.
    apply doHook_request in HIn.
    destruct HIn as (hook2 & body & m & Hb & Hm & _ & _ & Hv & Hu & _).
    destruct (normalizeMethod_keeps env hook) as (_ & _ & Hh & Hbd & _).
    destruct (webhookBody_cases env (normalizeMethod env hook) evt)
      as [[Hne E] | [[He [Hs E]] | [[_ [_ E]] | [Hs [m' [Hm' E]]]]]];
      rewrite E in Hb; try discriminate.
    + inversion Hb; subst. rewrite Hh in Hm.
      repeat split; auto; [rewrite Hm; discriminate |].
      intros Hs. apply sends_event_true in Hs. tauto.
    + inversion Hb; subst. rewrite Hh in Hm.
      repeat split; auto; [rewrite Hm; discriminate |].
      intros Hs'. rewrite Hs in Hs'. discriminate.
    + rewrite Hh in Hm'.
      repeat split; auto; [rewrite Hm'; discriminate |].
      intros _. destruct (json_Marshal env evt) as [data | e]; [eauto | discriminate].
  - intros (Hn & Hv & Hu & Hj).
    destruct (WebHook.Headers hook) as [hdr |] eqn:Hh; [| contradiction].
    destruct (doHook_sends env hook evt w hdr Hh Hv Hu Hj) as (rq & ans & HIn).
    pose proof (In_count_pos is_Do _ _ HIn eq_refl). lia.
Qed.

(** [hook_ci] is sent; a hook whose URL has no scheme is not. *)
Lemma doHook_reaches_the_client_witness :
  (let env := sample_env (Ok app_deploy) (Ok []) (answer_with 200) in
   count is_Do (effects (doHook env hook_ci app_deploy [])) = 1%nat /\
   count is_Do (effects (doHook env hook_no_scheme app_deploy [])) <> 1%nat).
Proof.
  intros env. split.
  - apply (proj2 (proj1 (doHook_reaches_the_client env hook_ci app_deploy []))).
    split; [discriminate |]. split; [reflexivity |]. split; [reflexivity |].
    intros _. eexists. reflexivity.
  - intros H.
    apply (proj1 (proj1 (doHook_reaches_the_client env hook_no_scheme app_deploy []))) in H.
    destruct H as (_ & _ & H & _). discriminate.
Defined.



(** X4: a transport error of the client is returned as it is and no body
    is closed; a response has its body closed, once, whatever its status;
    no body is closed unless the client answered with a response. *)
Theorem doHook_closes_the_body :
  forall (env : Env) (hook : WebHook.t) (evt : Event.t) (w : World),
    (forall (insecure : bool) (req : Request.t) (e : error),
        In (call_Do insecure req (Err e)) (effects (doHook env hook evt w)) ->
        outcome_of (doHook env hook evt w) = Ret (Some e) /\
        count is_Close (effects (doHook env hook evt w)) = 0%nat) /\
    (forall (insecure : bool) (req : Request.t) (rsp : Response.t),
        In (call_Do insecure req (Ok rsp)) (effects (doHook env hook evt w)) ->
        count is_Close (effects (doHook env hook evt w)) = 1%nat) /\
    (count is_Close (effects (doHook env hook evt w)) <> 0%nat ->
     exists (insecure : bool) (req : Request.t) (rsp : Response.t),
       In (call_Do insecure req (Ok rsp)) (effects (doHook env hook evt w))).
Proof.
  intros env hook evt w.
  run_cases env hook evt w; unfold effects, outcome_of; cbn [fst snd app];
    (split; [| split]).
  all: try (intros i q x [H | []]; discriminate).
  all: try (intros i q x [H | [H | []]]; discriminate).
  all: try (cbn; intros H; contradiction).
  - intros i q x [H | [H | [H | [H | []]]]]; try discriminate.
    inversion H; subst. cbn. auto.
  - intros i q x [H | [H | [H | [H | []]]]]; discriminate.
  - intros i q x [H | [H | [H | [H | H]]]]; try discriminate.
    destruct (checkStatus rsp); cbn in H;
      [destruct H as [H | []]; discriminate | destruct H].
  - intros i q x _. destruct (checkStatus rsp); reflexivity.
  - intros _. eexists _, _, _. left. reflexivity.
Qed.

(** A refused connection and a 404. *)
Lemma doHook_closes_the_body_witness :
  (outcome_of (doHook (sample_env (Ok app_deploy) (Ok [])
                                  (Err (Foreign "connection refused")))
                      hook_ci app_deploy [])
   = Ret (Some (Foreign "connection refused")) /\
   count is_Close
     (effects (doHook (sample_env (Ok app_deploy) (Ok [])
                                  (Err (Foreign "connection refused")))
                      hook_ci app_deploy [])) = 0%nat) /\
  count is_Close
    (effects (doHook (sample_env (Ok app_deploy) (Ok []) (answer_with 404))
                     hook_ci app_deploy [])) = 1%nat.
Proof.
  split.
  - apply (proj1 (doHook_closes_the_body
                    (sample_env (Ok app_deploy) (Ok [])
                                (Err (Foreign "connection refused")))
                    hook_ci app_deploy []) false request_ci).
    vm_compute. left. reflexivity.
  - apply (proj1 (proj2 (doHook_closes_the_body
                    (sample_env (Ok app_deploy) (Ok []) (answer_with 404))
                    hook_ci app_deploy [])) false request_ci
             {| Response.StatusCode := 404; Response.Body := "upstream says no" |}).
    vm_compute. left. reflexivity.
Defined.

Lemma with_UserAgent_other (m : gmap string (list string)) (k : string) :
  k <> "User-Agent" -> with_UserAgent m !! k = m !! k.
Proof.
  intros Hk. unfold with_UserAgent.
  destruct (Header_Get (Some m) "User-Agent" =? "")%string; [| reflexivity].
  apply lookup_insert_ne. congruence.
Qed.

(** X5: every header of the hook other than Content-Type and User-Agent
    is in the request as the hook has it, and the request has no header of
    another name that the hook does not have. *)
Theorem doHook_passes_headers_on :
  forall (env : Env) (hook : WebHook.t) (evt : Event.t) (w : World)
         (insecure : bool) (req : Request.t) (answer : result Response.t),
    In (call_Do insecure req answer) (effects (doHook env hook evt w)) ->
    exists m h : gmap string (list string),
      WebHook.Headers hook = Some m /\
      Request.Header req = Some h /\
      forall k : string,
        k <> "Content-Type" -> k <> "User-Agent" -> h !! k = m !! k.
Proof.
  intros env hook evt w insecure rq answer HIn.
  destruct (doHook_request_parts env hook evt w insecure rq answer HIn)
    as (m & Hm & [(_ & _ & Hh) | [(_ & _ & _ & Hh) | (_ & _ & Hh)]]);
    exists m; eexists; (split; [exact Hm |]); (split; [exact Hh |]);
    intros k Hc Hu; rewrite with_UserAgent_other by exact Hu; try reflexivity.
  apply lookup_insert_ne. congruence.
Qed.

(** The token of [hook_ci] reaches the request. *)
Lemma doHook_passes_headers_on_witness :
  exists m h : gmap string (list string),
    WebHook.Headers hook_ci = Some m /\
    Request.Header request_ci = Some h /\
    h !! "X-Token" = m !! "X-Token".
Proof.
  destruct (doHook_passes_headers_on
              (sample_env (Ok app_deploy) (Ok []) (answer_with 200))
              hook_ci app_deploy [] false request_ci (answer_with 200))
    as (m & h & Hm & Hh & Hk).
  - vm_compute. left. reflexivity.
  - exists m, h. split; [exact Hm |]. split; [exact Hh |].
    apply Hk; discriminate.
Defined.

Lemma ascii_ToUpper_facts (c : ascii) :
  ascii_ToUpper (ascii_ToUpper c) = ascii_ToUpper c /\
  is_lower (ascii_ToUpper c) = false /\
  isASCII (ascii_ToUpper c) = isASCII c.
Proof.
  destruct c as [[] [] [] [] [] [] [] []]; vm_compute; auto.
Qed.

Lemma string_ToUpper_facts (s : string) :
  string_map ascii_ToUpper (string_map ascii_ToUpper s) = string_map ascii_ToUpper s /\
  string_forallb (fun c => negb (is_lower c)) (string_map ascii_ToUpper s) = true /\
  string_forallb isASCII (string_map ascii_ToUpper s) = string_forallb isASCII s.
Proof.
  induction s as [|c s (I1 & I2 & I3)]; [auto |].
  destruct (ascii_ToUpper_facts c) as (A1 & A2 & A3).
  cbn [string_map string_forallb]. rewrite I1, I2, I3, A1, A2, A3. auto.
Qed.

(** X6: on a method made of ASCII bytes the normalization of lines
    200-203 is idempotent, its result has no byte among a-z and is not
    empty; so a hook stored with its method already normalized runs as the
    hook it was normalized from. *)
Theorem normalizeMethod_idempotent :
  forall (env : Env) (hook : WebHook.t) (evt : Event.t) (w : World),
    string_forallb isASCII (WebHook.Method hook) = true ->
    normalizeMethod env (normalizeMethod env hook) = normalizeMethod env hook /\
    string_forallb (fun c => negb (is_lower c))
                   (WebHook.Method (normalizeMethod env hook)) = true /\
    WebHook.Method (normalizeMethod env hook) <> "" /\
    doHook env (normalizeMethod env hook) evt w = doHook env hook evt w.
Proof.
  intros env hook evt w Hascii.
  destruct (string_ToUpper_facts (WebHook.Method hook)) as (S1 & S2 & S3).
  assert (Hidem : normalizeMethod env (normalizeMethod env hook)
                  = normalizeMethod env hook).
  { unfold normalizeMethod, strings_ToUpper. cbn. rewrite Hascii.
    destruct (string_map ascii_ToUpper (WebHook.Method hook) =? "")%string eqn:E.
    - reflexivity.
    - cbn. rewrite S3, Hascii, S1, E. reflexivity. }
  split; [exact Hidem |]. split; [| split].
  - rewrite normalizeMethod_Method. unfold strings_ToUpper. rewrite Hascii.
    destruct (string_map ascii_ToUpper (WebHook.Method hook) =? "")%string;
      [reflexivity | exact S2].
  - apply normalizeMethod_nonempty.
  - apply doHook_normalized. exact Hidem.
Qed.

(** The method of [hook_ci] is [post]. *)
Lemma normalizeMethod_idempotent_witness :
  (let env := sample_env (Ok app_deploy) (Ok []) (answer_with 200) in
   normalizeMethod env (normalizeMethod env hook_ci) = normalizeMethod env hook_ci /\
   doHook env (normalizeMethod env hook_ci) app_deploy []
   = doHook env hook_ci app_deploy []).
Proof.
  intros env.
  destruct (normalizeMethod_idempotent env hook_ci app_deploy [] eq_refl)
    as (H1 & _ & _ & H4).
  split; [exact H1 | exact H4].
Defined.

(** ** The queue and the worker, over all schedules *)

(** Splits a step that ran into the piece that ran and what it needed. *)
Ltac step_inv H :=
  unfold step in H;
  match type of H with
  | context [negb (alive ?s)] => destruct (alive s) eqn:?
  end;
  cbn [negb] in H; [| discriminate];
  match type of H with
  | (match ?l with _ => _ end) = _ => destruct l as [[] | ? [] | [] |]
  end;
  unfold Shutdown, Notify, run in H; cbv beta iota in H;
  repeat match type of H with
         | (if ?b then _ else _) = _ => destruct b eqn:?
         | (match ?x with _ => _ end) = _ => destruct x eqn:?
         end;
  try discriminate; inversion H; subst; clear H.

Lemma steps_app env ctx_Err ls1 ls2 s :
  steps env ctx_Err (ls1 ++ ls2) s =
  match steps env ctx_Err ls1 s with
  | Some s1 => steps env ctx_Err ls2 s1
  | None => None
  end.
Proof.
  revert s. induction ls1 as [|l ls1 IH]; intros s; cbn; [reflexivity |].
  destruct (step env ctx_Err l s); [apply IH | reflexivity].
Qed.

(** A property every step keeps holds along every schedule. *)
Lemma steps_keep env ctx_Err (P : service -> Prop) :
  (forall l s s', P s -> step env ctx_Err l s = Some s' -> P s') ->
  forall ls s s', P s -> steps env ctx_Err ls s = Some s' -> P s'.
Proof.
  intros Hstep. induction ls as [|l ls IH]; intros s s' HP H; cbn in H.
  - inversion H; subst. exact HP.
  - destruct (step env ctx_Err l s) as [s1 |] eqn:E; [| discriminate].
    exact (IH s1 s' (Hstep l s s1 HP E) H).
Qed.

Lemma fetched_app t1 t2 : fetched (t1 ++ t2) = fetched t1 ++ fetched t2.
Proof.
  induction t1 as [|e t1 IH]; cbn; [reflexivity |].
  destruct e; cbn; rewrite ?IH; reflexivity.
Qed.

Lemma fetched_delivery t :
  Forall (fun e => is_delivery e = true) t -> fetched t = [].
Proof.
  induction 1 as [|e t He _ IH]; [reflexivity |].
  destruct e; try discriminate; exact IH.
Qed.

(** [handleEvent] fetches its identifier, once, whatever comes after. *)
Lemma fetched_handleEvent env evtID w :
  fetched (fst (handleEvent env evtID w)) = [evtID].
Proof.
  destruct (event_GetByID env w evtID) as [evt | e] eqn:Hget.
  - destruct (handleEvent_effects env evtID w evt Hget) as (rest & Heff & Hrest).
    unfold effects in Heff. rewrite Heff. cbn.
    rewrite (fetched_delivery rest Hrest). reflexivity.
  - rewrite (handleEvent_GetByID_fails env evtID w e Hget). reflexivity.
Qed.

Lemma queue_bound_step env ctx_Err l s s' :
  (length (evtCh s) <= chanBufferSize)%nat ->
  step env ctx_Err l s = Some s' ->
  (length (evtCh s') <= chanBufferSize)%nat.
Proof.
  intros Hb H. step_inv H; cbn; try assumption.
  - rewrite length_app. cbn [length].
    match goal with E : Nat.ltb _ _ = true |- _ => apply Nat.ltb_lt in E end. lia.
  - cbn [length] in Hb. lia.
Qed.

(** X7: along every schedule the queue holds at most [chanBufferSize]
    identifiers.  While it holds that many and the quit channel is open no
    case of the select of [Notify] can run: the producer blocks.  While it
    holds fewer, [Notify] can send, and the identifier goes to the back. *)
Theorem evtCh_is_bounded :
  forall (env : Env) (ctx_Err : error) (ls : list label) (s : service),
    steps env ctx_Err ls new_service = Some s ->
    (length (evtCh s) <= chanBufferSize)%nat /\
    (length (evtCh s) = chanBufferSize -> quitCh s = Open ->
     forall (evtID : string) (l : Notify_label),
       step env ctx_Err (in_Notify evtID l) s = None) /\
    (alive s = true -> (length (evtCh s) < chanBufferSize)%nat ->
     forall evtID : string,
     exists s' : service,
       step env ctx_Err (in_Notify evtID N_send) s = Some s' /\
       evtCh s' = evtCh s ++ [evtID] /\ worker s' = worker s /\
       caller s' = caller s).
Proof.
  intros env ctx_Err ls s Hs. split; [| split].
  - apply (steps_keep env ctx_Err
             (fun s => (length (evtCh s) <= chanBufferSize)%nat)
             (fun l s s' => queue_bound_step env ctx_Err l s s')
             ls new_service s); [cbn; lia | exact Hs].
  - intros Hfull Hq evtID l. unfold step, Notify.
    destruct (alive s); cbn [negb]; [| reflexivity].
    destruct l.
    + destruct (Nat.ltb_spec (length (evtCh s)) chanBufferSize); [lia | reflexivity].
    + rewrite Hq. reflexivity.
  - intros Ha Hroom evtID. unfold step, Notify. rewrite Ha. cbn [negb].
    apply Nat.ltb_lt in Hroom. rewrite Hroom. eexists. split; [reflexivity |].
    cbn. auto.
Qed.

(** Two identifiers sent to a new service. *)
Lemma evtCh_is_bounded_witness :
  exists s : service,
    steps (sample_env (Ok app_deploy) (Ok []) (answer_with 200))
          (Foreign "context deadline exceeded")
          [in_Notify "5d1f0e3a" N_send; in_Notify "5d1f0e3b" N_send] new_service
    = Some s /\
    (length (evtCh s) <= chanBufferSize)%nat.
Proof.
  eexists. split; [reflexivity |].
  eapply (proj1 (evtCh_is_bounded
                   (sample_env (Ok app_deploy) (Ok []) (answer_with 200))
                   (Foreign "context deadline exceeded")
                   [in_Notify "5d1f0e3a" N_send; in_Notify "5d1f0e3b" N_send] _ _)).
  Unshelve. reflexivity.
Defined.

Lemma fifo_step env ctx_Err l s s' :
  step env ctx_Err l s = Some s' ->
  fetched (history s') ++ in_hand (worker s') ++ evtCh s'
  = (fetched (history s) ++ in_hand (worker s) ++ evtCh s) ++ accepted [l].
Proof.
  intros H. step_inv H; cbn [accepted];
    cbn [history worker evtCh set_caller set_worker set_quitCh set_doneCh
         set_ctx_Done set_evtCh add_history in_hand];
    rewrite ?fetched_app, ?app_nil_r; cbn [fetched app];
    rewrite ?app_nil_r; try reflexivity.
  all: try (rewrite <- !app_assoc; reflexivity).
  all: match goal with
       | E : handleEvent ?en ?i (history ?st) = _ |- _ =>
           pose proof (fetched_handleEvent en i (history st)) as F;
           rewrite E in F; cbn [fst] in F; rewrite F
       end;
       rewrite <- app_assoc; reflexivity.
Qed.

Lemma accepted_app ls1 ls2 : accepted (ls1 ++ ls2) = accepted ls1 ++ accepted ls2.
Proof.
  induction ls1 as [|l ls1 IH]; [reflexivity |].
  destruct l as [| evtID [] | |]; cbn; rewrite ?IH; reflexivity.
Qed.

Lemma fifo_steps env ctx_Err ls :
  forall s s',
    steps env ctx_Err ls s = Some s' ->
    fetched (history s') ++ in_hand (worker s') ++ evtCh s'
    = (fetched (history s) ++ in_hand (worker s) ++ evtCh s) ++ accepted ls.
Proof.
  induction ls as [|l ls IH]; intros s s' H; cbn [steps] in H.
  - inversion H; subst. cbn. rewrite app_nil_r. reflexivity.
  - destruct (step env ctx_Err l s) as [s1 |] eqn:E; [| discriminate].
    rewrite (IH s1 s' H), (fifo_step env ctx_Err l s s1 E).
    change (l :: ls) with ([l] ++ ls). rewrite accepted_app, <- !app_assoc.
    reflexivity.
Qed.

(** X8: the queue is first in, first out, and loses and repeats nothing.
    Along every schedule, the identifiers fetched so far, then the one the
    worker has in hand, then those still queued, are the identifiers the
    calls of [Notify] have sent, in the order they were sent. *)
Theorem queue_is_fifo :
  forall (env : Env) (ctx_Err : error) (ls : list label) (s : service),
    steps env ctx_Err ls new_service = Some s ->
    fetched (history s) ++ in_hand (worker s) ++ evtCh s = accepted ls.
Proof.
  intros env ctx_Err ls s H.
  rewrite (fifo_steps env ctx_Err ls new_service s H). reflexivity.
Qed.

(** Three identifiers sent, two received, one handled. *)
Lemma queue_is_fifo_witness :
  exists s : service,
    steps (sample_env (Ok app_deploy) (Ok [hook_ci]) (answer_with 200))
          (Foreign "context deadline exceeded")
          [in_Notify "e1" N_send; in_Notify "e2" N_send; in_run R_recv;
           in_Notify "e3" N_send; in_run R_handle; in_run R_recv] new_service
    = Some s /\
    fetched (history s) ++ in_hand (worker s) ++ evtCh s = ["e1"; "e2"; "e3"] /\
    fetched (history s) = ["e1"] /\ worker s = run_handling "e2" /\
    evtCh s = ["e3"].
Proof.
  eexists. split; [vm_compute; reflexivity |]. split.
  - apply (queue_is_fifo (sample_env (Ok app_deploy) (Ok [hook_ci]) (answer_with 200))
                         (Foreign "context deadline exceeded")
                         [in_Notify "e1" N_send; in_Notify "e2" N_send; in_run R_recv;
                          in_Notify "e3" N_send; in_run R_handle; in_run R_recv]).
    vm_compute. reflexivity.
  - vm_compute. auto.
Defined.

Lemma alive_true (s : service) :
  alive s = true -> worker s <> run_panicked /\ caller s <> Shutdown_panicked.
Proof.
  unfold alive. destruct (worker s), (caller s); intros H; split; congruence.
Qed.





Lemma stopped_step env ctx_Err l s s' :
  worker s = run_returned -> step env ctx_Err l s = Some s' ->
  worker s' = run_returned /\
  evtCh s' = evtCh s ++ accepted [l] /\
  fetched (history s') = fetched (history s) /\
  requests (history s') = requests (history s).
Proof.
  intros W H. step_inv H;
    cbn [history worker evtCh set_caller set_worker set_quitCh set_doneCh
         set_ctx_Done set_evtCh add_history accepted];
    rewrite ?fetched_app, ?requests_app, ?app_nil_r; cbn [fetched requests];
    rewrite ?app_nil_r; try congruence; auto.
Qed.

Lemma stopped_steps env ctx_Err ls :
  forall s s',
    worker s = run_returned -> steps env ctx_Err ls s = Some s' ->
    worker s' = run_returned /\
    evtCh s' = evtCh s ++ accepted ls /\
    fetched (history s') = fetched (history s) /\
    requests (history s') = requests (history s).
Proof.
  induction ls as [|l ls IH]; intros s s' W H; cbn [steps] in H.
  - inversion H; subst. cbn. rewrite app_nil_r. auto.
  - destruct (step env ctx_Err l s) as [s1 |] eqn:E; [| discriminate].
    destruct (stopped_step env ctx_Err l s s1 W E) as (W1 & Q1 & F1 & R1).
    destruct (IH s1 s' W1 H) as (W2 & Q2 & F2 & R2).
    rewrite Q2, Q1, F2, F1, R2, R1.
    change (l :: ls) with ([l] ++ ls). rewrite accepted_app, <- app_assoc. auto.
Qed.

(** X10: [run] does not drain the queue.  At its select, with the quit
    channel closed, it can return whatever the queue holds; and once it has
    returned nothing is fetched and no request is sent any more: what was
    queued stays queued, and what [Notify] sends later is queued behind
    it. *)
Theorem run_does_not_drain :
  forall (env : Env) (ctx_Err : error) (s : service),
    (alive s = true -> worker s = run_select -> quitCh s = Closed ->
     exists s1 : service,
       step env ctx_Err (in_run R_quit) s = Some s1 /\
       worker s1 = run_returned /\ evtCh s1 = evtCh s /\
       history s1 = history s) /\
    (forall (ls : list label) (s' : service),
        worker s = run_returned ->
        steps env ctx_Err ls s = Some s' ->
        worker s' = run_returned /\
        evtCh s' = evtCh s ++ accepted ls /\
        fetched (history s') = fetched (history s) /\
        requests (history s') = requests (history s)).
Proof.
  intros env ctx_Err s. split.
  - intros A W Q. unfold step, run. rewrite A, W, Q. cbn.
    eexists. split; [reflexivity |]. cbn. auto.
  - intros ls s' W H. exact (stopped_steps env ctx_Err ls s s' W H).
Qed.

(** An identifier queued before the shutdown and one sent after it are
    both left in the queue. *)
Lemma run_does_not_drain_witness :
  steps (sample_env (Ok app_deploy) (Ok [hook_ci]) (answer_with 200))
        (Foreign "context deadline exceeded")
        [in_Notify "e1" N_send; in_Shutdown S_close; in_run R_quit] new_service
  = Some svc_stopped /\
  worker svc_stopped_later = run_returned /\
  evtCh svc_stopped_later = ["e1"; "e2"] /\
  fetched (history svc_stopped_later) = [] /\
  requests (history svc_stopped_later) = [].
Proof.
  split; [reflexivity |].
  exact (proj2 (run_does_not_drain
                  (sample_env (Ok app_deploy) (Ok [hook_ci]) (answer_with 200))
                  (Foreign "context deadline exceeded") svc_stopped)
           [in_Shutdown S_done; in_Notify "e2" N_send] svc_stopped_later
           eq_refl eq_refl).
Defined.

Lemma quit_stays_closed_step env ctx_Err l s s' :
  quitCh s = Closed -> step env ctx_Err l s = Some s' -> quitCh s' = Closed.
Proof.
  intros Q H. step_inv H; cbn; congruence.
Qed.

(** X11: the quit channel, once closed, stays closed, and from then on
    [Notify] never blocks: its select can always take the quit case, which
    drops the identifier and leaves the queue as it is.  With a full queue
    that is the only case it can take. *)
Theorem Notify_after_quit :
  forall (env : Env) (ctx_Err : error) (ls : list label) (s s' : service),
    quitCh s = Closed ->
    steps env ctx_Err ls s = Some s' ->
    quitCh s' = Closed /\
    (alive s' = true ->
     forall evtID : string,
       (exists s2 : service,
           step env ctx_Err (in_Notify evtID N_quit) s' = Some s2 /\
           evtCh s2 = evtCh s' /\ worker s2 = worker s' /\
           caller s2 = caller s' /\
           fetched (history s2) = fetched (history s')) /\
       (length (evtCh s') = chanBufferSize ->
        step env ctx_Err (in_Notify evtID N_send) s' = None)).
Proof.
  intros env ctx_Err ls s s' Q H.
  assert (Q' : quitCh s' = Closed).
  { exact (steps_keep env ctx_Err (fun s => quitCh s = Closed)
             (fun l s s' => quit_stays_closed_step env ctx_Err l s s')
             ls s s' Q H). }
  split; [exact Q' |].
  intros A evtID. split.
  - unfold step, Notify. rewrite A, Q'. cbn [negb].
    eexists. split; [reflexivity |]. cbn.
    rewrite fetched_app, app_nil_r. auto.
  - intros Hfull. unfold step, Notify. rewrite A. cbn [negb].
    destruct (Nat.ltb_spec (length (evtCh s')) chanBufferSize); [lia | reflexivity].
Qed.

(** After [Shutdown] has closed the quit channel an identifier can be
    dropped. *)
Lemma Notify_after_quit_witness :
  quitCh svc_quitting_later = Closed /\
  exists s2 : service,
    step (sample_env (Ok app_deploy) (Ok []) (answer_with 200))
         (Foreign "context deadline exceeded") (in_Notify "e2" N_quit)
         svc_quitting_later = Some s2 /\
    evtCh s2 = evtCh svc_quitting_later.
Proof.
  destruct (Notify_after_quit
              (sample_env (Ok app_deploy) (Ok []) (answer_with 200))
              (Foreign "context deadline exceeded")
              [in_Notify "e1" N_send] svc_quitting svc_quitting_later
              eq_refl eq_refl) as [Q N].
  split; [exact Q |].
  destruct (proj1 (N eq_refl "e2")) as (s2 & H1 & H2 & _).
  exists s2. split; [exact H1 | exact H2].
Defined.

(** X12: an error of [handleEvent] does not stop the worker.  When
    [handleEvent] returns, with or without error, [run] is back at its
    select with the channels and the queue as they were; the error, and
    only an error, is logged with the identifier; and the next identifier
    in the queue can be received. *)
Theorem run_survives_errors :
  forall (env : Env) (ctx_Err : error) (s : service) (evtID : string),
    alive s = true ->
    worker s = run_handling evtID ->
    returns (outcome_of (handleEvent env evtID (history s))) = true ->
    exists s' : service,
      step env ctx_Err (in_run R_handle) s = Some s' /\
      worker s' = run_select /\ alive s' = true /\
      evtCh s' = evtCh s /\ quitCh s' = quitCh s /\ doneCh s' = doneCh s /\
      caller s' = caller s /\
      history s' =
        history s ++ effects (handleEvent env evtID (history s))
          ++ match outcome_of (handleEvent env evtID (history s)) with
             | Ret (Some _) => [log_event_error evtID]
             | _ => []
             end /\
      (forall (next : string) (q : list string),
          evtCh s = next :: q ->
          exists s2 : service,
            step env ctx_Err (in_run R_recv) s' = Some s2 /\
            worker s2 = run_handling next /\ evtCh s2 = q).
Proof.
  intros env ctx_Err s evtID A W R.
  destruct (alive_true s A) as [_ Ac].
  unfold step at 1, run. rewrite A, W. cbn [negb].
  unfold effects, outcome_of in *.
  destruct (handleEvent env evtID (history s)) as [t [[e |] | p]];
    cbn [fst snd] in *; try discriminate.
  - eexists. split; [reflexivity |].
    cbn [history worker evtCh quitCh doneCh caller set_worker add_history].
    assert (A' : alive (set_worker run_select
                          (add_history (t ++ [log_event_error evtID]) s)) = true).
    { unfold alive; cbn. destruct (caller s); congruence. }
    repeat split; auto.
    intros next q Hq. unfold step, run. rewrite A'. cbn. rewrite Hq.
    eexists. split; [reflexivity |]. cbn. auto.
  - eexists. split; [reflexivity |].
    cbn [history worker evtCh quitCh doneCh caller set_worker add_history].
    assert (A' : alive (set_worker run_select (add_history t s)) = true).
    { unfold alive; cbn. destruct (caller s); congruence. }
    rewrite app_nil_r. repeat split; auto.
    intros next q Hq. unfold step, run. rewrite A'. cbn. rewrite Hq.
    eexists. split; [reflexivity |]. cbn. auto.
Qed.

(** An identifier whose event is not found, and the next one. *)
Lemma run_survives_errors_witness :
  exists s' s2 : service,
    step (sample_env (Err (Foreign "event not found")) (Ok []) (answer_with 200))
         (Foreign "context deadline exceeded") (in_run R_handle) svc_handling
    = Some s' /\
    history s' = [call_GetByID "e1"; log_event_error "e1"] /\
    step (sample_env (Err (Foreign "event not found")) (Ok []) (answer_with 200))
         (Foreign "context deadline exceeded") (in_run R_recv) s' = Some s2 /\
    worker s2 = run_handling "e2".
Proof.
  destruct (run_survives_errors
              (sample_env (Err (Foreign "event not found")) (Ok []) (answer_with 200))
              (Foreign "context deadline exceeded") svc_handling "e1"
              eq_refl eq_refl eq_refl)
    as (s' & H1 & _ & _ & _ & _ & _ & _ & Hh & Hn).
  destruct (Hn "e2" [] eq_refl) as (s2 & H2 & H3 & _).
  exists s', s2. split; [exact H1 |]. split; [exact Hh |].
  split; [exact H2 | exact H3].
Defined.




(** X14: [Create] reports the first check that fails, in the order name,
    name rule, URL: an empty name gives the message of line 249 whatever
    the URL; a name that breaks the rule gives the error of the rule
    whatever the URL; only then does an empty URL give the message of
    line 236, and a URL that does not parse the message of line 241, which
    ends in the text of the parse error.  [Update] gives the same two
    messages for the URL. *)
Theorem validation_reports_the_first_failure :
  forall (env : Env) (hook : WebHook.t) (world : World),
    (WebHook.Name hook = "" ->
     outcome_of (Create env hook world)
     = Ret (Some (ValidationError "webhook name must not be empty"))) /\
    (WebHook.Name hook <> "" ->
     validation_ValidateName env (WebHook.Name hook) = false ->
     outcome_of (Create env hook world)
     = Ret (validation_EnsureValidateName env (WebHook.Name hook))) /\
    (WebHook.Name hook <> "" ->
     validation_ValidateName env (WebHook.Name hook) = true ->
     WebHook.URL hook = "" ->
     outcome_of (Create env hook world)
     = Ret (Some (ValidationError "webhook url must not be empty"))) /\
    (WebHook.Name hook <> "" ->
     validation_ValidateName env (WebHook.Name hook) = true ->
     WebHook.URL hook <> "" ->
     forall err : error,
       url_Parse env (WebHook.URL hook) = Some err ->
       outcome_of (Create env hook world)
       = Ret (Some (ValidationError
                      ("webhook url is not valid: " +:+ error_Error err)))) /\
    (WebHook.URL hook = "" ->
     outcome_of (Update env hook world)
     = Ret (Some (ValidationError "webhook url must not be empty"))) /\
    (WebHook.URL hook <> "" ->
     forall err : error,
       url_Parse env (WebHook.URL hook) = Some err ->
       outcome_of (Update env hook world)
       = Ret (Some (ValidationError
                      ("webhook url is not valid: " +:+ error_Error err)))).
Proof.
  intros env hook world.
  unfold Create, Update, validation_EnsureValidateName, validateURL, ret, outcome_of.
  repeat split.
  - intros ->. reflexivity.
  - intros Hn Hv. apply String.eqb_neq in Hn. rewrite Hn, Hv. reflexivity.
  - intros Hn Hv Hu. apply String.eqb_neq in Hn. rewrite Hn, Hv, Hu. reflexivity.
  - intros Hn Hv Hu err Hp. apply String.eqb_neq in Hn, Hu.
    rewrite Hn, Hv, Hu, Hp. reflexivity.
  - intros ->. reflexivity.
  - intros Hu err Hp. apply String.eqb_neq in Hu. rewrite Hu, Hp. reflexivity.
Qed.

(** No name and no URL: the name is reported.  A URL without scheme. *)
Lemma validation_reports_the_first_failure_witness :
  (let env := sample_env (Ok app_deploy) (Ok []) (answer_with 200) in
   outcome_of (Create env (WebHook.with_Headers None hook_no_name) [])
   = Ret (Some (ValidationError "webhook name must not be empty")) /\
   outcome_of (Create env hook_bad_url [])
   = Ret (Some (ValidationError "webhook url is not valid: missing protocol scheme")) /\
   outcome_of (Update env hook_bad_url [])
   = Ret (Some (ValidationError "webhook url is not valid: missing protocol scheme"))).
Proof.
  intros env. split; [| split].
  - apply (proj1 (validation_reports_the_first_failure env
                    (WebHook.with_Headers None hook_no_name) [])).
    reflexivity.
  - apply (proj1 (proj2 (proj2 (proj2 (validation_reports_the_first_failure env
                                         hook_bad_url []))))
             ltac:(discriminate) eq_refl ltac:(discriminate)
             (Foreign "missing protocol scheme") eq_refl).
  - apply (proj2 (proj2 (proj2 (proj2 (proj2 (validation_reports_the_first_failure env
                                                hook_bad_url [])))))
             ltac:(discriminate) (Foreign "missing protocol scheme") eq_refl).
Defined.

(** X15: what one call of [doHook] does to the outside, in order: at
    most one request to the client, followed at once by the latency and,
    when there was a response, by the closing of its body; then the counter
    of calls; then, when it fails, the counter of errors.  It never reads or
    writes the store, fetches no event and writes no log. *)
Theorem doHook_effects_in_order :
  forall (env : Env) (hook : WebHook.t) (evt : Event.t) (w : World),
    exists (exchange tail : list effect),
      effects (doHook env hook evt w) = exchange ++ webhooksTotal_Inc :: tail /\
      (exchange = [] \/
       (exists (req : Request.t) (e : error),
           exchange = [call_Do (WebHook.Insecure hook) req (Err e);
                       webhooksLatency_Observe]) \/
       (exists (req : Request.t) (rsp : Response.t),
           exchange = [call_Do (WebHook.Insecure hook) req (Ok rsp);
                       webhooksLatency_Observe; rsp_Body_Close])) /\
      (tail = [] \/ tail = [webhooksError_Inc]) /\
      (tail = [webhooksError_Inc] <->
       exists e : error, outcome_of (doHook env hook evt w) = Ret (Some e)).
Proof.
  intros env hook evt w.
  assert (Hi : forall hook2 r,
             webhookBody env (normalizeMethod env hook) evt = Ret (hook2, r) ->
             WebHook.Insecure hook2 = WebHook.Insecure hook).
  { intros hook2 r Hb.
    destruct (webhookBody_keeps _ _ _ _ _ Hb) as (_ & _ & _ & _ & K & _).
    destruct (normalizeMethod_keeps env hook) as (_ & _ & _ & _ & K').
    congruence. }
  run_cases env hook evt w; unfold effects, outcome_of; cbn [fst snd app].
  - exists [], []. repeat split; auto; try discriminate.
    intros [e H]; discriminate.
  - exists [], [webhooksError_Inc]. repeat split; eauto.
  - exists [], [webhooksError_Inc]. repeat split; eauto.
  - exists [], []. repeat split; auto; try discriminate.
    intros [e H]; discriminate.
  - rewrite (Hi _ _ Hb).
    eexists [_; _], [webhooksError_Inc]. repeat split; eauto.
  - rewrite (Hi _ _ Hb).
    destruct (checkStatus rsp) as [e |].
    + eexists [_; _; _], [webhooksError_Inc]. repeat split; eauto 6.
    + eexists [_; _; _], []. repeat split; eauto 6; try discriminate.
      intros [e H]; discriminate.
Qed.
